(** * pyarrow.ipc: writer option resolution, constructors and the pandas façade

    A shallow embedding of [python/pyarrow/ipc.py].  The module is a thin
    Python layer over the native reader and writer classes of [pyarrow.lib];
    what it decides itself is how a writer's [IpcWriteOptions] are resolved
    from the two keyword arguments and the process environment, and which
    calls the convenience functions make, in which order and with which
    arguments. *)

From Stdlib Require Import ZArith Lia Ascii String.
From stdpp Require Import base option list strings gmap.

Local Open Scope string_scope.
Local Open Scope list_scope.
Local Open Scope Z_scope.

(** ** Python values and exceptions *)

(** [pyarrow.lib.MetadataVersion], restricted to the two members the module
    names. *)
Inductive MetadataVersion : Type := V4 | V5.

(** Modelled from the spec: [pyarrow.lib.IpcWriteOptions] is declared in the
    native layer.  The data model gives it a legacy-framing flag and a
    metadata version; the keyword constructor stores both. *)
Record IpcWriteOptions : Type := {
  use_legacy_format : bool;
  metadata_version : MetadataVersion
}.

(** The objects a caller can pass for [options].  [PyObject cls truth] stands
    for an instance of any other class, known by its class name and by what
    [bool()] makes of it. *)
Inductive PyVal : Type :=
  | PyNone
  | PyBool (b : bool)
  | PyInt (n : Z)
  | PyStr (s : string)
  | PyOptions (o : IpcWriteOptions)
  | PyObject (cls : string) (truth : bool).

(** The two exceptions the module raises itself, and those of the native
    layer: a decode error, a usage error of the reader and writer classes,
    and any other failure. *)
Inductive PyExc : Type :=
  | ValueError (msg : string)
  | TypeError (msg : string)
  | DecodeError (msg : string)
  | UsageError (msg : string)
  | LibError (msg : string).

(** The outcome of a call: a value, or a raised exception. *)
Inductive Res (A : Type) : Type :=
  | Ok (a : A)
  | Raise (e : PyExc).
Arguments Ok {A} a.
Arguments Raise {A} e.

#[global] Instance Res_ret : MRet Res := fun A a => Ok a.
#[global] Instance Res_bind : MBind Res := fun A B f r =>
  match r with
  | Ok a => f a
  | Raise e => Raise e
  end.

(** [x is not None] *)
Definition is_not_None (v : PyVal) : bool :=
  match v with
  | PyNone => false
  | _ => true
  end.

(** Truth value testing, as [if v:] does it.  An [IpcWriteOptions] instance
    defines neither [__bool__] nor [__len__], so it is true. *)
Definition truthy (v : PyVal) : bool :=
  match v with
  | PyNone => false
  | PyBool b => b
  | PyInt n => negb (n =? 0)
  | PyStr s => negb (String.eqb s "")
  | PyOptions _ => true
  | PyObject _ t => t
  end.

(** [isinstance(v, IpcWriteOptions)], giving the instance when it is one. *)
Definition as_IpcWriteOptions (v : PyVal) : option IpcWriteOptions :=
  match v with
  | PyOptions o => Some o
  | _ => None
  end.

(** [str(type(v))], which [format] puts into the [TypeError] message. *)
Definition type_repr (v : PyVal) : string :=
  "<class '" +:+
  match v with
  | PyNone => "NoneType"
  | PyBool _ => "bool"
  | PyInt _ => "int"
  | PyStr _ => "str"
  | PyOptions _ => "pyarrow.lib.IpcWriteOptions"
  | PyObject cls _ => cls
  end +:+ "'>".

(** ** The builtins [int] and [bool] on environment text *)

Module Builtins.

(** White space that [int] skips around an ASCII literal. *)
Definition is_space (c : ascii) : bool :=
  let n := N_of_ascii c in
  (((9 <=? n) && (n <=? 13)) || (n =? 32))%N.

Definition digit_value (c : ascii) : option Z :=
  let n := N_of_ascii c in
  if ((48 <=? n) && (n <=? 57))%N then Some (Z.of_N n - 48) else None.

Fixpoint lstrip (s : string) : string :=
  match s with
  | String c rest => if is_space c then lstrip rest else s
  | EmptyString => EmptyString
  end.

Fixpoint all_space (s : string) : bool :=
  match s with
  | String c rest => is_space c && all_space rest
  | EmptyString => true
  end.

(** What the digit scanner saw last: an underscore may only stand between
    two digits. *)
Inductive prev_char : Type := AtStart | AfterDigit | AfterUnderscore.

(** Reads the digits of a base-10 literal, giving its value and the text
    that follows it. *)
Fixpoint scan_digits (prev : prev_char) (acc : Z) (s : string)
  : option (Z * string) :=
  match s with
  | EmptyString =>
      match prev with
      | AfterDigit => Some (acc, EmptyString)
      | _ => None
      end
  | String c rest =>
      match digit_value c with
      | Some d => scan_digits AfterDigit (10 * acc + d) rest
      | None =>
          match prev with
          | AfterDigit =>
              if Ascii.eqb c "_"%char
              then scan_digits AfterUnderscore acc rest
              else Some (acc, s)
          | _ => None
          end
      end
  end.

(** [int(s)] for a [str] of ASCII text: optional white space, an optional
    sign, decimal digits (single underscores between them allowed),
    optional white space; [None] is the [ValueError] of an invalid
    literal. *)
Definition parse_int (s : string) : option Z :=
  let s := lstrip s in
  let '(sign, s) :=
    match s with
    | String "+"%char rest => (1, rest)
    | String "-"%char rest => (-1, rest)
    | _ => (1, s)
    end in
  match scan_digits AtStart 0 s with
  | Some (n, rest) => if all_space rest then Some (sign * n) else None
  | None => None
  end.

Definition int (s : string) : Res Z :=
  match parse_int s with
  | Some n => Ok n
  | None =>
      Raise (ValueError
               ("invalid literal for int() with base 10: '" +:+ s +:+ "'"))
  end.

(** [bool(n)] on an [int]. *)
Definition bool (n : Z) : Datatypes.bool := negb (n =? 0).

End Builtins.

(** ** Option resolution *)

Section Resolver.

(** [os.environ], the process environment at the time of the call. *)
Variable environ : gmap string string.

(** [os.environ.get(key, default)] *)
Definition environ_get (key default : string) : string :=
  match environ !! key with
  | Some v => v
  | None => default
  end.

Definition _get_legacy_format_default
    (use_legacy_format : option Datatypes.bool) (options : PyVal)
  : Res IpcWriteOptions :=
  if bool_decide (use_legacy_format ≠ None) && is_not_None options then
    Raise (ValueError
             "Can provide at most one of options and use_legacy_format")
  else if truthy options then
    match as_IpcWriteOptions options with
    | None =>
        Raise (TypeError
                 ("expected IpcWriteOptions, got " +:+ type_repr options))
    | Some o => Ok o
    end
  else
    let metadata_version := V5 in
    use_legacy_format ←
      match use_legacy_format with
      | None =>
          n ← Builtins.int (environ_get "ARROW_PRE_0_15_IPC_FORMAT" "0");
          Ok (Builtins.bool n)
      | Some b => Ok b
      end;
    n ← Builtins.int (environ_get "ARROW_PRE_1_0_METADATA_VERSION" "0");
    let metadata_version :=
      if Builtins.bool n then V4 else metadata_version in
    Ok {| use_legacy_format := use_legacy_format;
          metadata_version := metadata_version |}.

(** The truth value resolution gives a variable,
    [bool(int(os.environ.get(key, '0')))], when its text is an integer
    literal. *)
Definition environ_flag (key : string) : option Datatypes.bool :=
  Builtins.bool <$> Builtins.parse_int (environ_get key "0").

End Resolver.

(** How one override variable is read, case by case: unset or an integer
    literal of value zero is false, an integer literal of any other value is
    true, and text that is no integer literal is a [ValueError]. *)
Definition toggle (value : option string) : Res bool :=
  match value with
  | None => Ok false
  | Some text =>
      match Builtins.parse_int text with
      | Some n => Ok (if n =? 0 then false else true)
      | None =>
          Raise (ValueError
                   ("invalid literal for int() with base 10: '" +:+ text +:+ "'"))
      end
  end.

(** ** Calls into the native layer *)

(** Objects of [pyarrow.lib] that the module only passes around: stateful
    ones are known by reference, a buffer by its bytes. *)
Definition Sink : Type := nat.
Definition Source : Type := nat.
Definition Writer : Type := nat.
Definition Reader : Type := nat.
Definition Buffer : Type := list Byte.byte.

(** Keyword arguments collected by [**options], in call order. *)
Definition Kwargs : Type := list (string * PyVal).

Section Native.

(** A pandas data frame, an Arrow schema and an Arrow record batch: values
    of the columnar layer, opaque here. *)
Context {Frame Schema RecordBatch : Type}.

(** A [pyarrow.Table] as [read_all] assembles it: the schema and the
    batches in arrival order. *)
Record Table : Type := {
  table_schema : Schema;
  table_batches : list RecordBatch
}.

(** The methods of the native classes that [ipc.py] calls, each with the
    type of what it returns. *)
Inductive libE : Type → Type :=
  | RecordBatch_from_pandas (df : Frame) (nthreads preserve_index : PyVal)
    : libE RecordBatch
  | BufferOutputStream : libE Sink
  | getvalue (sink : Sink) : libE Buffer
  | BufferReader (buf : Buffer) : libE Source
  | _RecordBatchStreamWriter_open
      (sink : Sink) (schema : Schema) (options : IpcWriteOptions)
    : libE Writer
  | _RecordBatchFileWriter_open
      (sink : Sink) (schema : Schema) (options : IpcWriteOptions)
    : libE Writer
  | write_batch (writer : Writer) (batch : RecordBatch) : libE unit
  | Writer__exit__ (writer : Writer) : libE unit
  | _RecordBatchStreamReader_open (source : Source) : libE Reader
  | _RecordBatchFileReader_open (source : Source) (footer_offset : PyVal)
    : libE Reader
  | read_all (reader : Reader) : libE Table
  | Reader__exit__ (reader : Reader) : libE unit
  | Table_to_pandas (table : Table) (kwargs : Kwargs) : libE Frame.

(** A Python function body as the calls it makes: it returns, raises, or
    calls the native layer and goes on with the outcome of the call. *)
Inductive Prog (R : Type) : Type :=
  | Ret (r : R)
  | Throw (e : PyExc)
  | Call {X : Type} (c : libE X) (k : Res X → Prog R).
Arguments Ret {R} r.
Arguments Throw {R} e.
Arguments Call {R X} c k.

Fixpoint Prog_bind_def {A B : Type} (f : A → Prog B) (p : Prog A) : Prog B :=
  match p with
  | Ret a => f a
  | Throw e => Throw e
  | Call c k => Call c (λ x, Prog_bind_def f (k x))
  end.

#[global] Instance Prog_ret : MRet Prog := @Ret.
#[global] Instance Prog_bind : MBind Prog := @Prog_bind_def.

(** An expression of the module itself, evaluated inside a body. *)
Definition lift {A : Type} (r : Res A) : Prog A :=
  match r with
  | Ok a => Ret a
  | Raise e => Throw e
  end.

(** A call whose exception, if any, propagates. *)
Definition call {X : Type} (c : libE X) : Prog X := Call c lift.

(** [try: body finally: cleanup] *)
Fixpoint finally {R : Type} (body : Prog R) (cleanup : Prog unit) : Prog R :=
  match body with
  | Ret r => _ ← cleanup; Ret r
  | Throw e => _ ← cleanup; Throw e
  | Call c k => Call c (λ x, finally (k x) cleanup)
  end.

(** Modelled from the spec: the context-manager methods of the native
    reader and writer classes.  Entering gives the object itself; leaving
    the block, normally or by an exception, releases it through
    [__exit__], which does not swallow the exception. *)
Definition with_ {M R : Type}
    (manager : Prog M) (__exit__ : M → libE unit) (body : M → Prog R)
  : Prog R :=
  m ← manager; finally (body m) (call (__exit__ m)).

(** *** Running a body *)

(** One call as seen from outside: what was called and how it came back. *)
Inductive step : Type :=
  | Called {X : Type} (c : libE X) (r : Res X).

(** [exec p tr out]: the body [p] can make exactly the calls [tr], the
    native layer answering as recorded, and then ends with [out]. *)
Fixpoint exec {R : Type} (p : Prog R) (tr : list step) (out : Res R) : Prop :=
  match p with
  | Ret r => tr = [] ∧ out = Ok r
  | Throw e => tr = [] ∧ out = Raise e
  | Call c k => ∃ x tr', tr = Called c x :: tr' ∧ exec (k x) tr' out
  end.

(** A native layer over a state [W]: how each call answers and what it
    leaves behind. *)
Definition handler (W : Type) : Type := ∀ X, libE X → W → Res X * W.

Fixpoint run {W R : Type} (h : handler W) (p : Prog R) (w : W)
  : list step * Res R * W :=
  match p with
  | Ret r => ([], Ok r, w)
  | Throw e => ([], Raise e, w)
  | Call c k =>
      let '(x, w1) := h _ c w in
      let '(tr, out, w2) := run h (k x) w1 in
      (Called c x :: tr, out, w2)
  end.

(** How a run ends: its outcome and the state it leaves. *)
Definition result {W R : Type} (h : handler W) (p : Prog R) (w : W) : Res R * W :=
  ((run h p w).1.2, (run h p w).2).

(** ** The module's classes and functions *)

Variable environ : gmap string string.

(** [batch.schema] *)
Variable RecordBatch_schema : RecordBatch → Schema.

(** [RecordBatchStreamReader.__init__] *)
Definition RecordBatchStreamReader (source : Source) : Prog Reader :=
  call (_RecordBatchStreamReader_open source).

(** [RecordBatchStreamWriter.__init__]; both keywords default to [None]. *)
Definition RecordBatchStreamWriter
    (sink : Sink) (schema : Schema)
    (use_legacy_format : option bool) (options : PyVal) : Prog Writer :=
  options ← lift (_get_legacy_format_default environ use_legacy_format options);
  call (_RecordBatchStreamWriter_open sink schema options).

(** [RecordBatchFileReader.__init__]; [footer_offset] defaults to [None]. *)
Definition RecordBatchFileReader
    (source : Source) (footer_offset : PyVal) : Prog Reader :=
  call (_RecordBatchFileReader_open source footer_offset).

(** [RecordBatchFileWriter.__init__] *)
Definition RecordBatchFileWriter
    (sink : Sink) (schema : Schema)
    (use_legacy_format : option bool) (options : PyVal) : Prog Writer :=
  options ← lift (_get_legacy_format_default environ use_legacy_format options);
  call (_RecordBatchFileWriter_open sink schema options).

(** [_ReadPandasOption.read_pandas], the mix-in both reader classes
    inherit. *)
Definition read_pandas (self : Reader) (options : Kwargs) : Prog Frame :=
  table ← call (read_all self);
  call (Table_to_pandas table options).

Definition new_stream
    (sink : Sink) (schema : Schema)
    (use_legacy_format : option bool) (options : PyVal) : Prog Writer :=
  RecordBatchStreamWriter sink schema use_legacy_format options.

Definition open_stream (source : Source) : Prog Reader :=
  RecordBatchStreamReader source.

Definition new_file
    (sink : Sink) (schema : Schema)
    (use_legacy_format : option bool) (options : PyVal) : Prog Writer :=
  RecordBatchFileWriter sink schema use_legacy_format options.

Definition open_file (source : Source) (footer_offset : PyVal) : Prog Reader :=
  RecordBatchFileReader source footer_offset.

(** The four public ways to construct a writer. *)
Definition writer_constructors
  : list (Sink → Schema → option bool → PyVal → Prog Writer) :=
  [RecordBatchStreamWriter; RecordBatchFileWriter; new_stream; new_file].

(** [nthreads] and [preserve_index] default to [None]. *)
Definition serialize_pandas
    (df : Frame) (nthreads preserve_index : PyVal) : Prog Buffer :=
  batch ← call (RecordBatch_from_pandas df nthreads preserve_index);
  sink ← call BufferOutputStream;
  _ ← with_ (RecordBatchStreamWriter sink (RecordBatch_schema batch) None PyNone)
        Writer__exit__
        (λ writer, call (write_batch writer batch));
  call (getvalue sink).

(** [use_threads] defaults to [True]. *)
Definition deserialize_pandas (buf : Buffer) (use_threads : PyVal)
  : Prog Frame :=
  buffer_reader ← call (BufferReader buf);
  table ← with_ (RecordBatchStreamReader buffer_reader)
            Reader__exit__
            (λ reader, call (read_all reader));
  call (Table_to_pandas table [("use_threads", use_threads)]).

End Native.

Arguments Ret {Frame Schema RecordBatch R} r.
Arguments Throw {Frame Schema RecordBatch R} e.
Arguments Call {Frame Schema RecordBatch R X} c k.

(** ** The stream protocol of the native layer

    The reader and writer classes behind [_open], [write_batch], [read_all]
    and the context-manager methods live in [pyarrow.lib].  What follows is
    their stream protocol: message framing, the writer and reader state
    machines, and the objects they keep. *)

Definition byte : Type := Byte.byte.

(** The low eight bits of [n] as a byte. *)
Definition byte_of_Z (n : Z) : byte :=
  match Byte.of_N (Z.to_N (n mod 256)) with
  | Some b => b
  | None => Byte.x00
  end.

Definition Z_of_byte (b : byte) : Z := Z.of_N (Byte.to_N b).

(** A 32-bit integer, little-endian. *)
Definition le32 (n : Z) : list byte :=
  [byte_of_Z n; byte_of_Z (n / 256); byte_of_Z (n / 65536);
   byte_of_Z (n / 16777216)].

(** Reads four bytes as an unsigned little-endian number. *)
Definition read_le32 (bs : list byte) : option (Z * list byte) :=
  match bs with
  | b0 :: b1 :: b2 :: b3 :: rest =>
      Some (Z_of_byte b0 + 256 * Z_of_byte b1 + 65536 * Z_of_byte b2
            + 16777216 * Z_of_byte b3, rest)
  | _ => None
  end.

(** Modelled from the spec: the continuation marker of current framing, four
    bytes of all ones. *)
Definition continuation_marker : Z := 4294967295.

(** Modelled from the spec: the number of zero bytes that pad [n] bytes to an
    8-byte boundary. *)
Definition padding (n : nat) : nat := ((8 - n `mod` 8) `mod` 8)%nat.

Section Wire.

Context {Schema Descriptor Value : Type}.

(** Modelled from the spec: the kind-specific part of a message's metadata,
    the tagged value the message type registry dispatches on.  A dictionary
    batch names its dictionary id and says whether it is a delta. *)
Inductive Header : Type :=
  | SchemaHeader (schema : Schema)
  | DictionaryBatchHeader (id : Z) (is_delta : bool) (values : Descriptor)
  | RecordBatchHeader (batch : Descriptor)
  | TensorHeader (tensor : Descriptor)
  | SparseTensorHeader (tensor : Descriptor).

(** Modelled from the spec: the kind tags Schema(0), DictionaryBatch(1),
    RecordBatch(2), Tensor(3), SparseTensor(4). *)
Definition kind_tag (h : Header) : Z :=
  match h with
  | SchemaHeader _ => 0
  | DictionaryBatchHeader _ _ _ => 1
  | RecordBatchHeader _ => 2
  | TensorHeader _ => 3
  | SparseTensorHeader _ => 4
  end.

(** Modelled from the spec: what a message envelope's metadata bytes hold:
    the metadata version, the tagged header, and the length of the body, so
    that a reader can skip a body without decoding it. *)
Record Metadata : Type := {
  md_version : MetadataVersion;
  md_header : Header;
  md_body_length : Z
}.

(** Modelled from the spec: the framing epoch of a message. *)
Inductive Epoch : Type := Legacy | Current.

(** Modelled from the spec: one decoded frame, the end-of-stream marker or a
    message envelope. *)
Inductive Framed : Type :=
  | EndOfStream
  | Envelope (epoch : Epoch) (metadata : Metadata) (body : list byte).

(** Modelled from the spec: the writer states Unopened, HeaderWritten,
    Writing and Closed. *)
Inductive WriterState : Type := Unopened | HeaderWritten | Writing | Closed.

(** Modelled from the spec: the reader states Unopened, SchemaRead, Reading
    and Exhausted. *)
Inductive ReaderState : Type := NotOpened | SchemaRead | Reading | Exhausted.

(** Modelled from the spec: a stream writer owns its sink, keeps the schema
    and the options fixed at construction, and accumulates the dictionaries
    it has written. *)
Record StreamWriter : Type := {
  writer_sink : Sink;
  writer_schema : Schema;
  writer_options : IpcWriteOptions;
  writer_state : WriterState;
  writer_dictionaries : gmap Z (list Value)
}.

(** Modelled from the spec: a stream reader owns its source, learns the
    schema when it is opened, and accumulates the dictionaries it has read. *)
Record StreamReader : Type := {
  reader_source : Source;
  reader_schema : option Schema;
  reader_state : ReaderState;
  reader_dictionaries : gmap Z (list Value)
}.

(** Modelled from the spec: the objects of the native layer that are alive:
    in-memory sinks with the bytes written so far, buffer readers with the
    bytes not yet read, writers and readers, and the next free reference. *)
Record World : Type := {
  sinks : gmap Sink (list byte);
  sources : gmap Source (list byte);
  writers : gmap Writer StreamWriter;
  readers : gmap Reader StreamReader;
  next_ref : nat
}.

End Wire.

Arguments Header : clear implicits.
Arguments Metadata : clear implicits.
Arguments Framed : clear implicits.
Arguments StreamWriter : clear implicits.
Arguments StreamReader : clear implicits.
Arguments World : clear implicits.

(** Modelled from the spec: the collaborators the protocol treats as opaque
    services: the schema accessor and the dictionaries a batch refers to (in
    first-use order), the encoding of a batch and of dictionary values into a
    descriptor and body bytes and their decoding, the metadata encoding, the
    data-frame converter, and the file protocol's two entry points. *)
Class Columnar (Frame Schema RecordBatch Descriptor Value : Type) : Type := {
  Schema_eq_dec :: EqDecision Schema;
  Value_eq_dec :: EqDecision Value;
  batch_schema : RecordBatch → Schema;
  batch_dictionaries : RecordBatch → list (Z * list Value);
  batch_descriptor : RecordBatch → Descriptor;
  batch_body : RecordBatch → list byte;
  decode_batch :
    Schema → gmap Z (list Value) → Descriptor → list byte → option RecordBatch;
  dictionary_descriptor : list Value → Descriptor;
  dictionary_body : list Value → list byte;
  decode_dictionary : Descriptor → list byte → option (list Value);
  encode_metadata : Metadata Schema Descriptor → list byte;
  decode_metadata : list byte → option (Metadata Schema Descriptor);
  from_pandas : Frame → PyVal → PyVal → Res RecordBatch;
  to_pandas : @Table Schema RecordBatch → Kwargs → Res Frame;
  file_writer_open :
    Sink → Schema → IpcWriteOptions → World Schema Value →
    Res Writer * World Schema Value;
  file_reader_open :
    Source → PyVal → World Schema Value → Res Reader * World Schema Value
}.

Section Protocol.

Context `{Columnar Frame Schema RecordBatch Descriptor Value}.

(** *** Message framing *)

(** Modelled from the spec: the metadata of a message: the writer's metadata
    version, the header, and the body's length. *)
Definition message_metadata
    (options : IpcWriteOptions) (header : Header Schema Descriptor)
    (body : list byte) : Metadata Schema Descriptor :=
  {| md_version := metadata_version options;
     md_header := header;
     md_body_length := Z.of_nat (length body) |}.

(** Modelled from the spec: one message on the wire.  Legacy framing writes
    the metadata length as a little-endian int32, the metadata and the body;
    current framing puts the continuation marker first and pads metadata and
    body to an 8-byte boundary with zero bytes. *)
Definition frame_message
    (options : IpcWriteOptions) (header : Header Schema Descriptor)
    (body : list byte) : list byte :=
  let metadata := encode_metadata (message_metadata options header body) in
  if use_legacy_format options then
    le32 (Z.of_nat (length metadata)) ++ metadata ++ body
  else
    le32 continuation_marker ++ le32 (Z.of_nat (length metadata)) ++
    metadata ++ replicate (padding (length metadata)) Byte.x00 ++
    body ++ replicate (padding (length body)) Byte.x00.

(** Modelled from the spec: the end-of-stream marker, a metadata length of
    zero (after the continuation marker in current framing). *)
Definition end_of_stream (options : IpcWriteOptions) : list byte :=
  if use_legacy_format options then le32 0
  else le32 continuation_marker ++ le32 0.

Definition read_int32 (bs : list byte) : Res (Z * list byte) :=
  match read_le32 bs with
  | Some r => Ok r
  | None => Raise (DecodeError "truncated message length")
  end.

(** Takes [n] bytes; fewer bytes than declared, or a negative count, is a
    decode error. *)
Definition take_exactly (what : string) (n : Z) (bs : list byte)
  : Res (list byte * list byte) :=
  if bool_decide (0 ≤ n ≤ Z.of_nat (length bs)) then
    Ok (take (Z.to_nat n) bs, drop (Z.to_nat n) bs)
  else Raise (DecodeError ("truncated or negative " +:+ what)).

Definition skip_padding (n : Z) (bs : list byte) : Res (list byte) :=
  '(_, rest) ← take_exactly "padding" (Z.of_nat (padding (Z.to_nat n))) bs;
  Ok rest.

(** Modelled from the spec: decoding one frame.  The first four bytes decide
    the epoch: the continuation marker means current framing, anything else
    is a legacy metadata length.  A length of zero is the end of the stream;
    a negative length, truncated metadata or a truncated body is a decode
    error. *)
Definition read_message (bs : list byte)
  : Res (Framed Schema Descriptor * list byte) :=
  '(first, rest) ← read_int32 bs;
  let epoch :=
    if bool_decide (first = continuation_marker) then Current else Legacy in
  '(len, rest) ←
    match epoch with
    | Current => read_int32 rest
    | Legacy => Ok (first, rest)
    end;
  if bool_decide (len = 0) then Ok (EndOfStream, rest)
  else if bool_decide (2147483648 ≤ len) then
    Raise (DecodeError "negative metadata length")
  else
    '(metadata, rest) ← take_exactly "metadata" len rest;
    rest ← match epoch with
           | Current => skip_padding len rest
           | Legacy => Ok rest
           end;
    match decode_metadata metadata with
    | None => Raise (DecodeError "unreadable metadata")
    | Some md =>
        '(body, rest) ← take_exactly "body" (md_body_length md) rest;
        rest ← match epoch with
               | Current => skip_padding (md_body_length md) rest
               | Legacy => Ok rest
               end;
        Ok (Envelope epoch md body, rest)
    end.

(** *** The writer *)

(** Modelled from the spec: the dictionary messages a batch needs, given the
    dictionaries already written: a new id is written in full, an extension
    of the known values as a delta, any other change as a replacement, and an
    unchanged dictionary not at all.  Gives the updates in first-use order
    as (id, is-delta, values) and the dictionaries known afterwards. *)
Fixpoint dictionary_updates
    (known : gmap Z (list Value)) (used : list (Z * list Value))
  : list (Z * bool * list Value) * gmap Z (list Value) :=
  match used with
  | [] => ([], known)
  | (id, values) :: used =>
      let update :=
        match known !! id with
        | None => [(id, false, values)]
        | Some old =>
            if bool_decide (old = values) then []
            else if bool_decide (take (length old) values = old) then
              [(id, true, drop (length old) values)]
            else [(id, false, values)]
        end in
      let '(updates, known) := dictionary_updates (<[id := values]> known) used in
      (update ++ updates, known)
  end.

(** Modelled from the spec: a DictionaryBatch message carries the
    dictionary id and the values as a batch of their own. *)
Definition dictionary_batch (update : Z * bool * list Value)
  : Header Schema Descriptor * list byte :=
  let '(id, is_delta, values) := update in
  (DictionaryBatchHeader id is_delta (dictionary_descriptor values),
   dictionary_body values).

Definition dictionary_message
    (options : IpcWriteOptions) (update : Z * bool * list Value) : list byte :=
  frame_message options (dictionary_batch update).1 (dictionary_batch update).2.

Definition set_writer_state
    (s : WriterState) (w : StreamWriter Schema Value) : StreamWriter Schema Value :=
  {| writer_sink := writer_sink w;
     writer_schema := writer_schema w;
     writer_options := writer_options w;
     writer_state := s;
     writer_dictionaries := writer_dictionaries w |}.

(** Modelled from the spec: [open] writes the Schema message first and goes
    to Writing; it fails when called twice.  Gives the writer and the bytes
    for its sink. *)
Definition writer_open (w : StreamWriter Schema Value)
  : Res (StreamWriter Schema Value * list byte) :=
  match writer_state w with
  | Unopened =>
      Ok (set_writer_state Writing w,
          frame_message (writer_options w) (SchemaHeader (writer_schema w)) [])
  | _ => Raise (UsageError "writer is already open")
  end.

(** Modelled from the spec: [write_batch] fails after close and when the
    batch's schema is not the stream's; otherwise it writes the dictionary
    messages the batch needs and then the RecordBatch message. *)
Definition writer_write_batch
    (w : StreamWriter Schema Value) (batch : RecordBatch)
  : Res (StreamWriter Schema Value * list byte) :=
  match writer_state w with
  | Writing =>
      if bool_decide (batch_schema batch = writer_schema w) then
        let '(updates, known) :=
          dictionary_updates (writer_dictionaries w) (batch_dictionaries batch) in
        Ok ({| writer_sink := writer_sink w;
               writer_schema := writer_schema w;
               writer_options := writer_options w;
               writer_state := Writing;
               writer_dictionaries := known |},
            concat (dictionary_message (writer_options w) <$> updates) ++
            frame_message (writer_options w)
              (RecordBatchHeader (batch_descriptor batch)) (batch_body batch))
      else Raise (UsageError "batch schema does not match the stream schema")
  | _ => Raise (UsageError "writer is not open for writing")
  end.

(** Modelled from the spec: [close] writes the end-of-stream marker and is a
    no-op on a closed writer. *)
Definition writer_close (w : StreamWriter Schema Value)
  : StreamWriter Schema Value * list byte :=
  match writer_state w with
  | Closed => (w, [])
  | _ => (set_writer_state Closed w, end_of_stream (writer_options w))
  end.

(** *** The reader *)

(** Modelled from the spec: [open] reads exactly one message, which must be
    the Schema message; an empty source or another first message is a decode
    error.  Gives the reader and the bytes left in its source. *)
Definition reader_open (r : StreamReader Schema Value) (bytes : list byte)
  : Res (StreamReader Schema Value * list byte) :=
  match reader_state r with
  | NotOpened =>
      '(msg, rest) ← read_message bytes;
      match msg with
      | Envelope _ {| md_header := SchemaHeader schema |} _ =>
          Ok ({| reader_source := reader_source r;
                 reader_schema := Some schema;
                 reader_state := SchemaRead;
                 reader_dictionaries := reader_dictionaries r |}, rest)
      | _ => Raise (DecodeError "the first message is not a schema")
      end
  | _ => Raise (UsageError "reader is already open")
  end.

(** Modelled from the spec: a dictionary batch that is not a delta replaces
    the dictionary of its id; a delta extends the one already defined. *)
Definition apply_dictionary
    (known : gmap Z (list Value)) (id : Z) (is_delta : bool) (values : list Value)
  : Res (gmap Z (list Value)) :=
  if is_delta then
    match known !! id with
    | Some old => Ok (<[id := old ++ values]> known)
    | None => Raise (DecodeError "delta for a dictionary that is not defined")
    end
  else Ok (<[id := values]> known).

(** Modelled from the spec: reading up to the next record batch.  A
    dictionary batch is applied and reading goes on; a record batch is
    decoded against the schema and the dictionaries; the end-of-stream
    marker gives no batch; any other kind is a decode error.  Every round
    consumes a frame, and [fuel] bounds the rounds. *)
Fixpoint read_batch_loop
    (fuel : nat) (schema : Schema) (known : gmap Z (list Value))
    (bytes : list byte)
  : Res (option RecordBatch * gmap Z (list Value) * list byte) :=
  match fuel with
  | O => Raise (DecodeError "truncated stream")
  | S fuel =>
      '(msg, rest) ← read_message bytes;
      match msg with
      | EndOfStream => Ok (None, known, rest)
      | Envelope _ md body =>
          match md_header md with
          | DictionaryBatchHeader id is_delta descriptor =>
              match decode_dictionary descriptor body with
              | Some values =>
                  known ← apply_dictionary known id is_delta values;
                  read_batch_loop fuel schema known rest
              | None => Raise (DecodeError "unreadable dictionary batch")
              end
          | RecordBatchHeader descriptor =>
              match decode_batch schema known descriptor body with
              | Some batch => Ok (Some batch, known, rest)
              | None => Raise (DecodeError "unreadable record batch")
              end
          | _ => Raise (DecodeError "unexpected message kind")
          end
      end
  end.

(** Modelled from the spec: [read_next_batch]; once the end-of-stream marker
    was seen the reader is Exhausted and reads no further. *)
Definition reader_read_next_batch
    (r : StreamReader Schema Value) (bytes : list byte)
  : Res (option RecordBatch * StreamReader Schema Value * list byte) :=
  match reader_state r, reader_schema r with
  | Exhausted, _ => Ok (None, r, bytes)
  | (SchemaRead | Reading), Some schema =>
      '(batch, known, rest) ←
        read_batch_loop (S (length bytes)) schema (reader_dictionaries r) bytes;
      Ok (batch,
          {| reader_source := reader_source r;
             reader_schema := reader_schema r;
             reader_state := match batch with
                             | Some _ => Reading
                             | None => Exhausted
                             end;
             reader_dictionaries := known |},
          rest)
  | _, _ => Raise (UsageError "reader is not open")
  end.

(** Reads batch after batch until the stream is exhausted. *)
Fixpoint drain
    (fuel : nat) (r : StreamReader Schema Value) (bytes : list byte)
  : Res (list RecordBatch * StreamReader Schema Value * list byte) :=
  match fuel with
  | O => Raise (DecodeError "truncated stream")
  | S fuel =>
      '(batch, r, rest) ← reader_read_next_batch r bytes;
      match batch with
      | None => Ok ([], r, rest)
      | Some batch =>
          '(batches, r, rest) ← drain fuel r rest;
          Ok (batch :: batches, r, rest)
      end
  end.

(** Modelled from the spec: [read_all] drains the remaining batches in
    arrival order into one table with the stream's schema. *)
Definition reader_read_all
    (r : StreamReader Schema Value) (bytes : list byte)
  : Res (@Table Schema RecordBatch * StreamReader Schema Value * list byte) :=
  match reader_schema r with
  | Some schema =>
      '(batches, r, rest) ← drain (S (length bytes)) r bytes;
      Ok ({| table_schema := schema; table_batches := batches |}, r, rest)
  | None => Raise (UsageError "reader is not open")
  end.

(** *** The native layer as a whole *)

Definition with_sink (sink : Sink) (bytes : list byte)
    (w : World Schema Value) : World Schema Value :=
  {| sinks := <[sink := bytes]> (sinks w);
     sources := sources w;
     writers := writers w;
     readers := readers w;
     next_ref := next_ref w |}.

Definition with_source (source : Source) (bytes : list byte)
    (w : World Schema Value) : World Schema Value :=
  {| sinks := sinks w;
     sources := <[source := bytes]> (sources w);
     writers := writers w;
     readers := readers w;
     next_ref := next_ref w |}.

Definition with_writer (writer : Writer) (obj : StreamWriter Schema Value)
    (w : World Schema Value) : World Schema Value :=
  {| sinks := sinks w;
     sources := sources w;
     writers := <[writer := obj]> (writers w);
     readers := readers w;
     next_ref := next_ref w |}.

Definition with_reader (reader : Reader) (obj : StreamReader Schema Value)
    (w : World Schema Value) : World Schema Value :=
  {| sinks := sinks w;
     sources := sources w;
     writers := writers w;
     readers := <[reader := obj]> (readers w);
     next_ref := next_ref w |}.

(** A new object gets the next free reference. *)
Definition allocate (w : World Schema Value) : nat * World Schema Value :=
  (next_ref w,
   {| sinks := sinks w;
      sources := sources w;
      writers := writers w;
      readers := readers w;
      next_ref := S (next_ref w) |}).

(** What a writer method gives is appended to the writer's sink. *)
Definition on_writer (writer : Writer)
    (method : StreamWriter Schema Value →
              Res (StreamWriter Schema Value * list byte))
    (w : World Schema Value) : Res () * World Schema Value :=
  match writers w !! writer with
  | None => (Raise (LibError "not a writer"), w)
  | Some obj =>
      match sinks w !! writer_sink obj with
      | None => (Raise (LibError "not a sink"), w)
      | Some written =>
          match method obj with
          | Raise e => (Raise e, w)
          | Ok (obj', bytes) =>
              (Ok (),
               with_writer writer obj'
                 (with_sink (writer_sink obj) (written ++ bytes) w))
          end
      end
  end.

(** Modelled from the spec: constructing a stream writer: a new writer on
    the sink, opened at once. *)
Definition stream_writer_open
    (sink : Sink) (schema : Schema) (options : IpcWriteOptions)
    (w : World Schema Value) : Res Writer * World Schema Value :=
  match sinks w !! sink with
  | None => (Raise (LibError "not a sink"), w)
  | Some written =>
      match writer_open {| writer_sink := sink;
                           writer_schema := schema;
                           writer_options := options;
                           writer_state := Unopened;
                           writer_dictionaries := ∅ |} with
      | Raise e => (Raise e, w)
      | Ok (obj, bytes) =>
          let '(writer, w) := allocate w in
          (Ok writer, with_writer writer obj (with_sink sink (written ++ bytes) w))
      end
  end.

(** Modelled from the spec: constructing a stream reader: a new reader on
    the source, opened at once. *)
Definition stream_reader_open (source : Source) (w : World Schema Value)
  : Res Reader * World Schema Value :=
  match sources w !! source with
  | None => (Raise (LibError "not a readable source"), w)
  | Some bytes =>
      match reader_open {| reader_source := source;
                           reader_schema := None;
                           reader_state := NotOpened;
                           reader_dictionaries := ∅ |} bytes with
      | Raise e => (Raise e, w)
      | Ok (obj, rest) =>
          let '(reader, w) := allocate w in
          (Ok reader, with_reader reader obj (with_source source rest w))
      end
  end.

Definition stream_read_all (reader : Reader) (w : World Schema Value)
  : Res (@Table Schema RecordBatch) * World Schema Value :=
  match readers w !! reader with
  | None => (Raise (LibError "not a reader"), w)
  | Some obj =>
      match sources w !! reader_source obj with
      | None => (Raise (LibError "not a readable source"), w)
      | Some bytes =>
          match reader_read_all obj bytes with
          | Raise e => (Raise e, w)
          | Ok (table, obj', rest) =>
              (Ok table,
               with_reader reader obj' (with_source (reader_source obj) rest w))
          end
      end
  end.

(** Modelled from the spec: how the native layer answers each call.  Leaving
    a writer's block closes it; leaving a reader's block releases it, which
    changes nothing that a later call could see. *)
Definition native : handler (World Schema Value) :=
  λ X (c : libE X),
    match c in libE X return World Schema Value → Res X * World Schema Value with
    | RecordBatch_from_pandas df nthreads preserve_index =>
        λ w, (from_pandas df nthreads preserve_index, w)
    | BufferOutputStream =>
        λ w, let '(sink, w) := allocate w in (Ok sink, with_sink sink [] w)
    | getvalue sink =>
        λ w, match sinks w !! sink with
             | Some written => (Ok written, w)
             | None => (Raise (LibError "not a sink"), w)
             end
    | BufferReader buf =>
        λ w, let '(source, w) := allocate w in
             (Ok source, with_source source buf w)
    | _RecordBatchStreamWriter_open sink schema options =>
        stream_writer_open sink schema options
    | _RecordBatchFileWriter_open sink schema options =>
        file_writer_open sink schema options
    | write_batch writer batch =>
        on_writer writer (λ obj, writer_write_batch obj batch)
    | Writer__exit__ writer =>
        on_writer writer (λ obj, Ok (writer_close obj))
    | _RecordBatchStreamReader_open source => stream_reader_open source
    | _RecordBatchFileReader_open source footer_offset =>
        file_reader_open source footer_offset
    | read_all reader => stream_read_all reader
    | Reader__exit__ reader =>
        λ w, match readers w !! reader with
             | Some _ => (Ok (), w)
             | None => (Raise (LibError "not a reader"), w)
             end
    | Table_to_pandas table kwargs => λ w, (to_pandas table kwargs, w)
    end.

(** Modelled from the spec: a world with no object in it. *)
Definition empty_world : World Schema Value :=
  {| sinks := ∅; sources := ∅; writers := ∅; readers := ∅; next_ref := 0 |}.

(** *** What a round trip asks of the opaque services *)

(** A metadata block fits a frame when the metadata decoder reads it back
    and its length is positive and fits the signed 32-bit length field. *)
Definition framable (md : Metadata Schema Descriptor) : Prop :=
  decode_metadata (encode_metadata md) = Some md ∧
  0 < Z.of_nat (length (encode_metadata md)) < 2147483648.

(** The dictionary messages a new stream writes for [batch], and the
    dictionaries known once they are written. *)
Definition batch_updates (batch : RecordBatch) : list (Z * bool * list Value) :=
  (dictionary_updates ∅ (batch_dictionaries batch)).1.

Definition batch_known (batch : RecordBatch) : gmap Z (list Value) :=
  (dictionary_updates ∅ (batch_dictionaries batch)).2.

(** Header and body of each message of a stream that holds [batch] alone. *)
Definition stream_messages (batch : RecordBatch)
  : list (Header Schema Descriptor * list byte) :=
  (SchemaHeader (batch_schema batch), []) ::
  (dictionary_batch <$> batch_updates batch) ++
  [(RecordBatchHeader (batch_descriptor batch), batch_body batch)].

(** The opaque services read back what they wrote for [batch]: every
    metadata block of its stream fits a frame, every dictionary written
    decodes to its values, and the batch decodes to itself against its
    schema and dictionaries. *)
Definition reads_back (options : IpcWriteOptions) (batch : RecordBatch) : Prop :=
  Forall (λ m, framable (message_metadata options m.1 m.2))
         (stream_messages batch) ∧
  Forall (λ u : Z * bool * list Value,
            decode_dictionary (dictionary_descriptor u.2) (dictionary_body u.2)
            = Some u.2)
         (batch_updates batch) ∧
  decode_batch (batch_schema batch) (batch_known batch)
    (batch_descriptor batch) (batch_body batch) = Some batch.

(** The bytes of a stream that holds [batch] alone. *)
Definition stream_bytes (options : IpcWriteOptions) (batch : RecordBatch)
  : list byte :=
  concat ((λ m, frame_message options m.1 m.2) <$> stream_messages batch) ++
  end_of_stream options.

End Protocol.

(** ** A small columnar layer

    Enough of a columnar layer to run the protocol on: a frame is one named
    column of small numbers, a batch stores it dictionary-encoded, and the
    metadata encoding is a flat byte layout. *)

Module Toy.

Definition Frame : Type := string * list Z.
Definition Schema : Type := string.
Definition RecordBatch : Type := string * list Z.
Definition Descriptor : Type := nat.

Fixpoint index_of (v : Z) (values : list Z) : Z :=
  match values with
  | [] => 0
  | v' :: values => if bool_decide (v' = v) then 0 else 1 + index_of v values
  end.

Definition dictionary_of (column : list Z) : list Z := remove_dups column.

Definition decode_column
    (known : gmap Z (list Z)) (rows : nat) (body : list byte) : option (list Z) :=
  values ← known !! 0;
  column ← mapM (λ b, values !! Z.to_nat (Z_of_byte b)) body;
  if bool_decide (length column = rows) then Some column else None.

Definition encode_header (h : Header Schema Descriptor) : list byte :=
  match h with
  | SchemaHeader schema => list_byte_of_string schema
  | DictionaryBatchHeader id is_delta rows =>
      le32 id ++ [byte_of_Z (if is_delta then 1 else 0)] ++ le32 (Z.of_nat rows)
  | RecordBatchHeader rows | TensorHeader rows | SparseTensorHeader rows =>
      le32 (Z.of_nat rows)
  end.

Definition decode_header (tag : Z) (bs : list byte)
  : option (Header Schema Descriptor) :=
  if bool_decide (tag = 0) then Some (SchemaHeader (string_of_list_byte bs))
  else if bool_decide (tag = 1) then
    '(id, bs) ← read_le32 bs;
    match bs with
    | delta :: bs =>
        '(rows, _) ← read_le32 bs;
        Some (DictionaryBatchHeader id (bool_decide (Z_of_byte delta = 1))
                (Z.to_nat rows))
    | [] => None
    end
  else
    '(rows, _) ← read_le32 bs;
    if bool_decide (tag = 2) then Some (RecordBatchHeader (Z.to_nat rows))
    else if bool_decide (tag = 3) then Some (TensorHeader (Z.to_nat rows))
    else if bool_decide (tag = 4) then Some (SparseTensorHeader (Z.to_nat rows))
    else None.

Definition encode (md : Metadata Schema Descriptor) : list byte :=
  [byte_of_Z (match md_version md with V4 => 4 | V5 => 5 end);
   byte_of_Z (kind_tag (md_header md))] ++
  le32 (md_body_length md) ++ encode_header (md_header md).

Definition decode (bs : list byte) : option (Metadata Schema Descriptor) :=
  match bs with
  | version :: tag :: bs =>
      '(body_length, bs) ← read_le32 bs;
      header ← decode_header (Z_of_byte tag) bs;
      Some {| md_version := if bool_decide (Z_of_byte version = 4) then V4 else V5;
              md_header := header;
              md_body_length := body_length |}
  | _ => None
  end.

#[export] Instance columnar : Columnar Frame Schema RecordBatch Descriptor Z := {|
  batch_schema := fst;
  batch_dictionaries := λ batch, [(0, dictionary_of batch.2)];
  batch_descriptor := λ batch, length batch.2;
  batch_body := λ batch,
    (λ v, byte_of_Z (index_of v (dictionary_of batch.2))) <$> batch.2;
  decode_batch := λ schema known rows body,
    column ← decode_column known rows body; Some (schema, column);
  dictionary_descriptor := λ values, length values;
  dictionary_body := λ values, byte_of_Z <$> values;
  decode_dictionary := λ rows body,
    if bool_decide (length body = rows) then Some (Z_of_byte <$> body) else None;
  encode_metadata := encode;
  decode_metadata := decode;
  from_pandas := λ df nthreads preserve_index,
    if forallb (λ v, bool_decide (0 ≤ v < 256)) df.2 then Ok df
    else Raise (LibError "value out of range");
  to_pandas := λ table kwargs,
    Ok (table_schema table, concat (snd <$> table_batches table));
  file_writer_open := λ sink schema options w,
    (Raise (LibError "no file protocol"), w);
  file_reader_open := λ source footer_offset w,
    (Raise (LibError "no file protocol"), w)
|}.

End Toy.

(** * Properties *)

(** ** Option resolution *)

Section ResolverFacts.

Variable environ : gmap string string.

(** Both arguments given: the first test of the function fires. *)
Lemma resolve_both (b : bool) (options : PyVal) :
  options ≠ PyNone →
  _get_legacy_format_default environ (Some b) options =
  Raise (ValueError "Can provide at most one of options and use_legacy_format").
Proof.
  intros Hopt. unfold _get_legacy_format_default.
  rewrite bool_decide_eq_true_2 by discriminate.
  destruct options; simpl; congruence.
Qed.

(** With at most one argument given the first test does not fire. *)
Lemma resolve_guard_false (u : option bool) (options : PyVal) :
  u = None ∨ options = PyNone →
  bool_decide (u ≠ None) && is_not_None options = false.
Proof.
  intros [-> | ->].
  - rewrite bool_decide_eq_false_2; [reflexivity | intros H; apply H; reflexivity].
  - apply andb_false_r.
Qed.

(** A value that tests true is checked and handed back. *)
Lemma resolve_truthy (options : PyVal) :
  truthy options = true →
  _get_legacy_format_default environ None options =
  match as_IpcWriteOptions options with
  | Some o => Ok o
  | None => Raise (TypeError ("expected IpcWriteOptions, got " +:+ type_repr options))
  end.
Proof.
  intros Ht. unfold _get_legacy_format_default.
  rewrite resolve_guard_false by (left; reflexivity).
  rewrite Ht. destruct (as_IpcWriteOptions options); reflexivity.
Qed.

(** A value that tests false alone is treated like [None]. *)
Lemma resolve_falsy (u : option bool) (options : PyVal) :
  u = None ∨ options = PyNone →
  truthy options = false →
  _get_legacy_format_default environ u options =
  _get_legacy_format_default environ u PyNone.
Proof.
  intros Hone Hf. unfold _get_legacy_format_default.
  rewrite resolve_guard_false by assumption.
  rewrite Hf. simpl. rewrite andb_false_r. reflexivity.
Qed.

Lemma environ_get_absent (key default : string) :
  environ !! key = None → environ_get environ key default = default.
Proof. unfold environ_get. by intros ->. Qed.

(** [int] fails with a [ValueError] only. *)
Lemma int_raises_ValueError (s : string) (e : PyExc) :
  Builtins.int s = Raise e → ∃ msg, e = ValueError msg.
Proof.
  unfold Builtins.int. destruct (Builtins.parse_int s); [discriminate | ].
  intros [= <-]. eauto.
Qed.

(** The defaults branch, once the variables it reads have a truth value. *)
Lemma resolve_None (u : option bool) (legacy pre_1_0 : bool) :
  (u = None → environ_flag environ "ARROW_PRE_0_15_IPC_FORMAT" = Some legacy) →
  environ_flag environ "ARROW_PRE_1_0_METADATA_VERSION" = Some pre_1_0 →
  _get_legacy_format_default environ u PyNone =
  Ok {| use_legacy_format := default legacy u;
        metadata_version := if pre_1_0 then V4 else V5 |}.
Proof.
  unfold environ_flag, _get_legacy_format_default, Builtins.int.
  intros H1 H2. rewrite resolve_guard_false by (right; reflexivity). simpl.
  destruct (Builtins.parse_int (environ_get environ "ARROW_PRE_1_0_METADATA_VERSION" "0"))
    as [n2 | ]; [ | discriminate]. injection H2 as <-.
  destruct u as [b | ]; simpl.
  - reflexivity.
  - specialize (H1 eq_refl).
    destruct (Builtins.parse_int (environ_get environ "ARROW_PRE_0_15_IPC_FORMAT" "0"))
      as [n1 | ]; [ | discriminate]. injection H1 as <-. reflexivity.
Qed.

Lemma environ_flag_absent (key : string) :
  environ !! key = None → environ_flag environ key = Some false.
Proof. intros H. unfold environ_flag. by rewrite environ_get_absent. Qed.

(** The reading of one variable, as the function does it, is [toggle]. *)
Lemma read_toggle (key : string) :
  (n ← Builtins.int (environ_get environ key "0"); Ok (Builtins.bool n)) =
  toggle (environ !! key).
Proof.
  unfold environ_get, toggle, Builtins.int, Builtins.bool.
  destruct (environ !! key) as [text | ]; [ | reflexivity].
  destruct (Builtins.parse_int text) as [n | ]; simpl; [ | reflexivity].
  by destruct (n =? 0).
Qed.

(** The defaults branch raises nothing but what [int] raises. *)
Lemma resolve_None_raises (u : option bool) (e : PyExc) :
  _get_legacy_format_default environ u PyNone = Raise e →
  ∃ msg, e = ValueError msg.
Proof.
  unfold _get_legacy_format_default.
  rewrite resolve_guard_false by (right; reflexivity). simpl truthy. cbv iota.
  pose proof (int_raises_ValueError
                (environ_get environ "ARROW_PRE_0_15_IPC_FORMAT" "0")) as H1.
  pose proof (int_raises_ValueError
                (environ_get environ "ARROW_PRE_1_0_METADATA_VERSION" "0")) as H2.
  destruct (Builtins.int (environ_get environ "ARROW_PRE_1_0_METADATA_VERSION" "0"));
    destruct u as [b | ]; simpl;
    destruct (Builtins.int (environ_get environ "ARROW_PRE_0_15_IPC_FORMAT" "0"));
    simpl; try discriminate; intros [= <-]; auto.
Qed.




End ResolverFacts.


(** How some texts are read. *)
Example toggle_readings :
  toggle None = Ok false ∧
  toggle (Some "0") = Ok false ∧
  toggle (Some "1") = Ok true ∧
  toggle (Some "2") = Ok true ∧
  toggle (Some " 1 ") = Ok true ∧
  toggle (Some "-1") = Ok true ∧
  toggle (Some "true") =
    Raise (ValueError "invalid literal for int() with base 10: 'true'") ∧
  toggle (Some "") =
    Raise (ValueError "invalid literal for int() with base 10: ''").
Proof. repeat split. Qed.






Section ConstructorFacts.

Context {Frame Schema RecordBatch : Type}.
Variable environ : gmap string string.
Variable RecordBatch_schema : RecordBatch → Schema.

Local Abbreviation Prog := (@Prog Frame Schema RecordBatch).
Local Abbreviation step := (@step Frame Schema RecordBatch).
Local Abbreviation at_most_one :=
  (ValueError "Can provide at most one of options and use_legacy_format").

Lemma exec_lift {A} (r : Res A) (tr : list step) (out : Res A) :
  exec (lift r) tr out ↔ tr = [] ∧ out = r.
Proof. destruct r; simpl; tauto. Qed.

Lemma exec_call {X} (c : libE X) (tr : list step) (out : Res X) :
  exec (call c) tr out ↔ tr = [Called c out].
Proof.
  unfold call; simpl. split.
  - intros (x & tr' & -> & H). apply exec_lift in H as [-> ->]. reflexivity.
  - intros ->. exists out, []. split; [reflexivity | apply exec_lift; auto].
Qed.

Lemma exec_bind {A B} (p : Prog A) (f : A → Prog B) tr out :
  exec (p ≫= f) tr out ↔
  (∃ e, exec p tr (Raise e) ∧ out = Raise e) ∨
  (∃ a tr1 tr2, exec p tr1 (Ok a) ∧ exec (f a) tr2 out ∧ tr = tr1 ++ tr2).
Proof.
  revert tr. induction p as [a | e | X c k IH]; intros tr; simpl.
  - split.
    + intros H. right. exists a, [], tr. auto.
    + intros [(e & [_ He] & _) | (a' & tr1 & tr2 & [-> Ha] & H & ->)];
        [discriminate | ]. injection Ha as <-. exact H.
  - split.
    + intros [-> ->]. left. eauto.
    + intros [(e' & [-> He] & ->) | (a' & tr1 & tr2 & [_ Ha] & _)];
        [ | discriminate]. injection He as ->. auto.
  - split.
    + intros (x & tr' & -> & H). apply IH in H.
      destruct H as [(e & H & ->) | (a & tr1 & tr2 & H1 & H2 & ->)].
      * left. exists e. split; [ | reflexivity]. exists x, tr'. auto.
      * right. exists a, (Called c x :: tr1), tr2. split; [ | auto].
        exists x, tr1. auto.
    + intros [(e & (x & tr' & -> & H) & ->) | (a & tr1 & tr2 & (x & tr' & -> & H1) & H2 & ->)].
      * exists x, tr'. split; [reflexivity | ]. apply IH. left. eauto.
      * exists x, (tr' ++ tr2). split; [reflexivity | ]. apply IH. right.
        exists a, tr', tr2. auto.
Qed.

Lemma exec_finally {R} (body : Prog R) (cleanup : Prog unit) tr out :
  exec (finally body cleanup) tr out ↔
  ∃ tr1 r1 tr2 r2,
    exec body tr1 r1 ∧ exec cleanup tr2 r2 ∧ tr = tr1 ++ tr2 ∧
    out = match r2 with Ok _ => r1 | Raise e => Raise e end.
Proof.
  revert tr. induction body as [r | e | X c k IH]; intros tr; cbn [finally].
  - rewrite exec_bind. split.
    + intros [(e & H & ->) | (u & tr1 & tr2 & H1 & [-> ->] & ->)].
      * exists [], (Ok r), tr, (Raise e). by repeat split.
      * exists [], (Ok r), tr1, (Ok u). rewrite app_nil_r. by repeat split.
    + intros (tr1 & r1 & tr2 & r2 & [-> ->] & H & -> & ->). simpl.
      destruct r2 as [u | e]; [right | left; eauto].
      exists u, tr2, []. rewrite app_nil_r. by repeat split.
  - rewrite exec_bind. split.
    + intros [(e' & H & ->) | (u & tr1 & tr2 & H1 & [-> ->] & ->)].
      * exists [], (Raise e), tr, (Raise e'). by repeat split.
      * exists [], (Raise e), tr1, (Ok u). rewrite app_nil_r. by repeat split.
    + intros (tr1 & r1 & tr2 & r2 & [-> ->] & H & -> & ->). simpl.
      destruct r2 as [u | e']; [right | left; eauto].
      exists u, tr2, []. rewrite app_nil_r. by repeat split.
  - cbn [exec]. split.
    + intros (x & tr' & -> & H). apply IH in H.
      destruct H as (tr1 & r1 & tr2 & r2 & H1 & H2 & -> & ->).
      exists (Called c x :: tr1), r1, tr2, r2. repeat split; eauto.
    + intros (tr1 & r1 & tr2 & r2 & (x & tr' & -> & H1) & H2 & -> & ->).
      exists x, (tr' ++ tr2). split; [reflexivity | ]. apply IH.
      exists tr', r1, tr2, r2. auto.
Qed.

(** C8: on a stream or file reader, [read_pandas] calls [read_all] once
    and, when that returns a table, [Table.to_pandas] on that table with
    the keyword options as they were given; it makes no other call, and
    its outcome is that of the last call it made. *)
Theorem read_pandas_calls
    (self : Reader) (options : Kwargs) (tr : list step) (out : Res Frame) :
  exec (read_pandas self options) tr out ↔
  (∃ e, tr = [Called (read_all self) (Raise e)] ∧ out = Raise e) ∨
  (∃ table,
      tr = [Called (read_all self) (Ok table);
            Called (Table_to_pandas table options) out]).
Proof.
  unfold read_pandas. rewrite exec_bind. setoid_rewrite exec_call. split.
  - intros [(e & -> & ->) | (t & tr1 & tr2 & -> & -> & ->)]; eauto.
  - intros [(e & -> & ->) | (t & ->)]; [left; eauto | right].
    exists t, [Called (read_all self) (Ok t)], [Called (Table_to_pandas t options) out].
    auto.
Qed.

(** Whatever the native layer does, a run is one of the executions. *)
Lemma run_exec {W R} (h : handler W) (p : Prog R) (w : W) :
  exec p (run h p w).1.1 (run h p w).1.2.
Proof.
  revert w. induction p as [r | e | X c k IH]; intros w; simpl; auto.
  destruct (h X c w) as [x w1]. specialize (IH x w1).
  destruct (run h (k x) w1) as [[tr out] w2]. simpl in *. eauto.
Qed.

(** C6: [serialize_pandas] returns a buffer exactly in the executions
    where it converts the frame once, with [nthreads] and [preserve_index]
    as given, creates a new in-memory sink, opens a stream writer on that
    sink with the batch's schema and the default options, writes that one
    batch, leaves the writer's block (closing it), and returns what
    [getvalue] gives for the sink. *)
Theorem serialize_pandas_calls
    (df : Frame) (nthreads preserve_index : PyVal)
    (tr : list step) (buf : Buffer) :
  exec (serialize_pandas environ RecordBatch_schema df nthreads preserve_index)
       tr (Ok buf) ↔
  ∃ batch sink options writer,
    _get_legacy_format_default environ None PyNone = Ok options ∧
    tr = [Called (RecordBatch_from_pandas df nthreads preserve_index) (Ok batch);
          Called BufferOutputStream (Ok sink);
          Called (_RecordBatchStreamWriter_open
                    sink (RecordBatch_schema batch) options) (Ok writer);
          Called (write_batch writer batch) (Ok ());
          Called (Writer__exit__ writer) (Ok ());
          Called (getvalue sink) (Ok buf)].
Proof.
  unfold serialize_pandas, with_, RecordBatchStreamWriter.
  destruct (_get_legacy_format_default environ None PyNone) as [options | e].
  - split.
    + intros H. cbn in H.
      destruct H as ([batch | ?] & ? & -> & H); cbn in H; [ | by destruct H].
      destruct H as ([sink | ?] & ? & -> & H); cbn in H; [ | by destruct H].
      destruct H as ([writer | ?] & ? & -> & H); cbn in H; [ | by destruct H].
      destruct H as ([[] | ?] & ? & -> & H); cbn in H.
      * destruct H as ([[] | ?] & ? & -> & H); cbn in H; [ | by destruct H].
        destruct H as ([buf' | ?] & ? & -> & H); cbn in H; [ | by destruct H].
        destruct H as [-> [= ->]]. by exists batch, sink, options, writer.
      * destruct H as ([[] | ?] & ? & -> & H); cbn in H; by destruct H.
    + intros (batch & sink & options' & writer & [= <-] & ->). cbn.
      repeat (eexists _, _; split; [reflexivity | ]; cbn). done.
  - split.
    + intros H. cbn in H.
      destruct H as ([batch | ?] & ? & -> & H); cbn in H; [ | by destruct H].
      destruct H as ([sink | ?] & ? & -> & H); cbn in H; by destruct H.
    + by intros (? & ? & ? & ? & ? & _).
Qed.

(** C7: [deserialize_pandas] returns a frame exactly in the executions
    where it wraps the buffer in a reader, opens a stream reader on it,
    reads everything with [read_all], leaves the reader's block (closing
    it), and only then converts the table with [use_threads] as given,
    returning the converted frame. *)
Theorem deserialize_pandas_calls
    (buf : Buffer) (use_threads : PyVal) (tr : list step) (df : Frame) :
  exec (deserialize_pandas buf use_threads) tr (Ok df) ↔
  ∃ buffer_reader reader table,
    tr = [Called (BufferReader buf) (Ok buffer_reader);
          Called (_RecordBatchStreamReader_open buffer_reader) (Ok reader);
          Called (read_all reader) (Ok table);
          Called (Reader__exit__ reader) (Ok ());
          Called (Table_to_pandas table [("use_threads", use_threads)]) (Ok df)].
Proof.
  unfold deserialize_pandas, with_, RecordBatchStreamReader. split.
  - intros H. cbn in H.
    destruct H as ([buffer_reader | ?] & ? & -> & H); cbn in H; [ | by destruct H].
    destruct H as ([reader | ?] & ? & -> & H); cbn in H; [ | by destruct H].
    destruct H as ([table | ?] & ? & -> & H); cbn in H.
    + destruct H as ([[] | ?] & ? & -> & H); cbn in H; [ | by destruct H].
      destruct H as ([df' | ?] & ? & -> & H); cbn in H; [ | by destruct H].
      destruct H as [-> [= ->]]. by exists buffer_reader, reader, table.
    + destruct H as ([[] | ?] & ? & -> & H); cbn in H; by destruct H.
  - intros (buffer_reader & reader & table & ->). cbn.
    repeat (eexists _, _; split; [reflexivity | ]; cbn). done.
Qed.

Lemma elem_of_writer_constructors
    (ctor : Sink → Schema → option bool → PyVal → Prog Writer) :
  ctor ∈ writer_constructors environ →
  ctor = RecordBatchStreamWriter environ ∨ ctor = RecordBatchFileWriter environ.
Proof.
  unfold writer_constructors. rewrite !elem_of_cons, elem_of_nil.
  intros [-> | [-> | [-> | [-> | []]]]]; auto.
Qed.

(** C1: each of the four writer constructors, given a legacy flag and an
    options value that are both not None, makes no call into the native
    layer (so nothing is opened or written) and raises the ValueError. *)
Theorem both_arguments_raise_ValueError
    (ctor : Sink → Schema → option bool → PyVal → Prog Writer)
    (sink : Sink) (schema : Schema) (b : bool) (options : PyVal)
    (tr : list step) (out : Res Writer) :
  ctor ∈ writer_constructors environ →
  options ≠ PyNone →
  exec (ctor sink schema (Some b) options) tr out ↔
  tr = [] ∧ out = Raise at_most_one.
Proof.
  intros Hctor Hopt.
  apply elem_of_writer_constructors in Hctor as [-> | ->];
    unfold RecordBatchStreamWriter, RecordBatchFileWriter;
    rewrite (resolve_both environ b options Hopt); cbn; tauto.
Qed.

(** C9: an options value that is not None but tests false still counts as
    given for the mutual-exclusion test, yet alone it is neither checked
    nor used: resolution, and with it every writer constructor, behaves as
    if options were None, and no TypeError comes out of resolution. *)
Theorem falsy_options_asymmetry (options : PyVal) :
  options ≠ PyNone →
  truthy options = false →
  (∀ b : bool,
      _get_legacy_format_default environ (Some b) options = Raise at_most_one) ∧
  _get_legacy_format_default environ None options =
    _get_legacy_format_default environ None PyNone ∧
  (∀ msg : string,
      _get_legacy_format_default environ None options ≠ Raise (TypeError msg)) ∧
  (∀ ctor : Sink → Schema → option bool → PyVal → Prog Writer,
      ctor ∈ writer_constructors environ →
      ∀ (sink : Sink) (schema : Schema),
        (∀ b : bool, ctor sink schema (Some b) options = Throw at_most_one) ∧
        ctor sink schema None options = ctor sink schema None PyNone).
Proof.
  intros Hgiven Hfalsy.
  assert (Hsame : _get_legacy_format_default environ None options =
                  _get_legacy_format_default environ None PyNone)
    by (apply resolve_falsy; [by left | done]).
  split; [ | split; [ | split]].
  - intros b. by apply resolve_both.
  - exact Hsame.
  - intros msg H. rewrite Hsame in H.
    apply resolve_None_raises in H as [msg' [=]].
  - intros ctor Hctor sink schema.
    apply elem_of_writer_constructors in Hctor as [-> | ->];
      unfold RecordBatchStreamWriter, RecordBatchFileWriter;
      (split; [intros b; by rewrite (resolve_both environ b options Hgiven)
              | by rewrite Hsame]).
Qed.

(** C10: each convenience function is the class constructor applied to
    the same arguments: [new_stream] and [new_file] pass sink, schema,
    legacy flag and options on, [open_stream] the source, [open_file] the
    source and the footer offset. *)
Theorem convenience_functions_are_constructors
    (sink : Sink) (source : Source) (schema : Schema)
    (use_legacy_format : option bool) (options footer_offset : PyVal) :
  new_stream environ sink schema use_legacy_format options =
    (RecordBatchStreamWriter environ sink schema use_legacy_format options : Prog Writer) ∧
  new_file environ sink schema use_legacy_format options =
    (RecordBatchFileWriter environ sink schema use_legacy_format options : Prog Writer) ∧
  open_stream source = (RecordBatchStreamReader source : Prog Reader) ∧
  open_file source footer_offset =
    (RecordBatchFileReader source footer_offset : Prog Reader).
Proof. repeat split. Qed.

End ConstructorFacts.

Lemma both_arguments_raise_ValueError_witness :
  exec (new_file (Frame:=()) (Schema:=()) (RecordBatch:=())
          ∅ 0%nat () (Some false) (PyObject "dict" false))
       [] (Raise (ValueError
                    "Can provide at most one of options and use_legacy_format")).
Proof.
  apply (both_arguments_raise_ValueError
           ∅ (new_file ∅) 0%nat () false (PyObject "dict" false)).
  - unfold writer_constructors. rewrite !elem_of_cons. auto.
  - discriminate.
  - done.
Defined.

Lemma falsy_options_asymmetry_witness :
  _get_legacy_format_default ∅ (Some true) (PyBool false) =
    Raise (ValueError "Can provide at most one of options and use_legacy_format") ∧
  _get_legacy_format_default ∅ None (PyBool false) =
    Ok {| use_legacy_format := false; metadata_version := V5 |}.
Proof.
  destruct (falsy_options_asymmetry (Frame:=()) (Schema:=()) (RecordBatch:=())
              ∅ (PyBool false)) as (Hboth & Halone & _); [discriminate | reflexivity | ].
  split; [apply Hboth | rewrite Halone; reflexivity].
Defined.

(** ** The stream protocol *)

Lemma Z_of_byte_of_Z (n : Z) : Z_of_byte (byte_of_Z n) = n mod 256.
Proof.
  unfold Z_of_byte, byte_of_Z.
  assert (Hlt : 0 ≤ n mod 256 < 256) by (apply Z.mod_pos_bound; lia).
  destruct (Byte.of_N (Z.to_N (n mod 256))) as [b | ] eqn:Hb.
  - apply Byte.to_of_N in Hb. rewrite Hb. lia.
  - apply Byte.of_N_None_iff in Hb. lia.
Qed.

Lemma read_le32_le32 (n : Z) (rest : list byte) :
  0 ≤ n < 4294967296 →
  read_le32 (le32 n ++ rest) = Some (n, rest).
Proof.
  intros Hn. unfold le32, read_le32. simpl. rewrite !Z_of_byte_of_Z.
  f_equal. f_equal. Z.div_mod_to_equations. lia.
Qed.

Lemma length_le32 (n : Z) : length (le32 n) = 4%nat.
Proof. reflexivity. Qed.

#[local] Opaque le32.

Section ProtocolFacts.

Context `{Columnar Frame Schema RecordBatch Descriptor Value}.

Lemma read_int32_le32 (n : Z) (rest : list byte) :
  0 ≤ n < 4294967296 →
  read_int32 (le32 n ++ rest) = Ok (n, rest).
Proof. intros Hn. unfold read_int32. by rewrite read_le32_le32. Qed.

Lemma take_exactly_app (what : string) (bs rest : list byte) :
  take_exactly what (Z.of_nat (length bs)) (bs ++ rest) = Ok (bs, rest).
Proof.
  unfold take_exactly. rewrite bool_decide_eq_true_2.
  - rewrite Nat2Z.id, take_app_length, drop_app_length. reflexivity.
  - rewrite length_app. lia.
Qed.

Lemma skip_padding_zeros (n : nat) (rest : list byte) :
  skip_padding (Z.of_nat n) (replicate (padding n) Byte.x00 ++ rest) = Ok rest.
Proof.
  unfold skip_padding. rewrite Nat2Z.id.
  rewrite <- (length_replicate (padding n) Byte.x00) at 1.
  by rewrite take_exactly_app.
Qed.

(** A frame is never empty: it starts with its length field. *)
Lemma frame_message_length
    (options : IpcWriteOptions) (header : Header Schema Descriptor)
    (body : list byte) :
  (4 ≤ length (frame_message options header body))%nat.
Proof.
  unfold frame_message. destruct (use_legacy_format options);
    rewrite !length_app, !length_le32; lia.
Qed.

(** Reading a frame gives back what was framed, in either epoch. *)
Lemma read_message_frame
    (options : IpcWriteOptions) (header : Header Schema Descriptor)
    (body rest : list byte) :
  framable (message_metadata options header body) →
  read_message (frame_message options header body ++ rest) =
  Ok (Envelope (if use_legacy_format options then Legacy else Current)
        (message_metadata options header body) body, rest).
Proof.
  intros [Hdecode Hlen]. unfold frame_message, read_message.
  set (md := message_metadata options header body) in *.
  set (metadata := encode_metadata md) in *.
  destruct (use_legacy_format options); rewrite <- !app_assoc.
  - rewrite read_int32_le32 by lia. simpl.
    rewrite bool_decide_eq_false_2 by (unfold continuation_marker; lia).
    simpl. rewrite !bool_decide_eq_false_2 by lia.
    rewrite take_exactly_app. simpl. rewrite Hdecode.
    subst md. simpl. by rewrite take_exactly_app.
  - rewrite read_int32_le32 by (unfold continuation_marker; lia). simpl.
    rewrite read_int32_le32 by lia. simpl.
    rewrite !bool_decide_eq_false_2 by lia.
    rewrite take_exactly_app. simpl. rewrite skip_padding_zeros. simpl.
    rewrite Hdecode. subst md. simpl. rewrite take_exactly_app. simpl.
    by rewrite skip_padding_zeros.
Qed.

Lemma read_message_end_of_stream (options : IpcWriteOptions) (rest : list byte) :
  read_message (end_of_stream options ++ rest) = Ok (EndOfStream, rest).
Proof.
  unfold end_of_stream, read_message. destruct (use_legacy_format options).
  - rewrite read_int32_le32 by lia. reflexivity.
  - rewrite <- app_assoc.
    rewrite read_int32_le32 by (unfold continuation_marker; lia). simpl.
    rewrite read_int32_le32 by lia. reflexivity.
Qed.

(** One dictionary message, read by the loop, leaves the reader with the
    dictionary the writer recorded. *)
Lemma read_dictionary_message
    (options : IpcWriteOptions) (schema : Schema) (known : gmap Z (list Value))
    (id : Z) (is_delta : bool) (sent values : list Value)
    (fuel : nat) (rest : list byte) :
  framable (message_metadata options
              (dictionary_batch (id, is_delta, sent)).1
              (dictionary_batch (id, is_delta, sent)).2) →
  decode_dictionary (dictionary_descriptor sent) (dictionary_body sent) = Some sent →
  apply_dictionary known id is_delta sent = Ok (<[id := values]> known) →
  read_batch_loop (S fuel) schema known
    (dictionary_message options (id, is_delta, sent) ++ rest) =
  read_batch_loop fuel schema (<[id := values]> known) rest.
Proof.
  intros Hframe Hdecode Happly. unfold dictionary_message.
  cbn [read_batch_loop]. rewrite read_message_frame by exact Hframe.
  simpl. rewrite Hdecode, Happly. reflexivity.
Qed.

Lemma read_dictionary_updates
    (options : IpcWriteOptions) (schema : Schema)
    (used : list (Z * list Value)) :
  ∀ (known known' : gmap Z (list Value)) (updates : list (Z * bool * list Value))
    (fuel : nat) (rest : list byte),
    dictionary_updates known used = (updates, known') →
    Forall (λ u, framable (message_metadata options
                             (dictionary_batch u).1 (dictionary_batch u).2))
           updates →
    Forall (λ u : Z * bool * list Value,
              decode_dictionary (dictionary_descriptor u.2) (dictionary_body u.2)
              = Some u.2) updates →
    read_batch_loop (length updates + fuel) schema known
      (concat (dictionary_message options <$> updates) ++ rest) =
    read_batch_loop fuel schema known' rest.
Proof.
  induction used as [ | [id values] used IH];
    intros known known' updates fuel rest Hupd Hframe Hdecode.
  - injection Hupd as <- <-. reflexivity.
  - cbn [dictionary_updates] in Hupd.
    destruct (dictionary_updates (<[id := values]> known) used)
      as [updates' known''] eqn:Hrest.
    injection Hupd as <- <-.
    apply Forall_app in Hframe as [Hframe1 Hframe2].
    apply Forall_app in Hdecode as [Hdecode1 Hdecode2].
    specialize (IH _ _ _ fuel rest Hrest Hframe2 Hdecode2).
    destruct (known !! id) as [old | ] eqn:Hold.
    + destruct (bool_decide (old = values)) eqn:Hsame.
      * apply bool_decide_eq_true in Hsame as ->.
        rewrite (insert_id known id values Hold) in IH. exact IH.
      * destruct (bool_decide (take (length old) values = old)) eqn:Hprefix.
        -- apply bool_decide_eq_true in Hprefix.
           rewrite Forall_singleton in Hframe1, Hdecode1.
           rewrite length_app, fmap_app, concat_app, <- app_assoc.
           cbn [length fmap list_fmap concat Nat.add]. rewrite app_nil_r. rewrite (read_dictionary_message _ _ _ _ _ _ values);
             [exact IH | exact Hframe1 | exact Hdecode1 | ].
           unfold apply_dictionary. rewrite Hold. do 2 f_equal.
           rewrite <- Hprefix at 1. apply take_drop.
        -- rewrite Forall_singleton in Hframe1, Hdecode1.
           rewrite length_app, fmap_app, concat_app, <- app_assoc.
           cbn [length fmap list_fmap concat Nat.add]. rewrite app_nil_r. by rewrite (read_dictionary_message _ _ _ _ _ _ values).
    + rewrite Forall_singleton in Hframe1, Hdecode1.
      rewrite length_app, fmap_app, concat_app, <- app_assoc.
      cbn [length fmap list_fmap concat Nat.add]. rewrite app_nil_r. by rewrite (read_dictionary_message _ _ _ _ _ _ values).
Qed.

Lemma dictionary_messages_length
    (options : IpcWriteOptions) (updates : list (Z * bool * list Value)) :
  (length updates ≤ length (concat (dictionary_message options <$> updates)))%nat.
Proof.
  induction updates as [ | u updates IH];
    cbn [length fmap list_fmap concat]; [lia | ].
  rewrite length_app. unfold dictionary_message at 1.
  pose proof (frame_message_length options (dictionary_batch u).1
                (dictionary_batch u).2).
  change (list_fmap _ _ (dictionary_message options) updates)
    with (dictionary_message options <$> updates). lia.
Qed.

(** The reader, opened on the bytes of a one-batch stream, finds the schema
    and is left with the messages after it. *)
Lemma reader_open_stream
    (options : IpcWriteOptions) (batch : RecordBatch) (source : Source) :
  reads_back options batch →
  reader_open {| reader_source := source;
                 reader_schema := None;
                 reader_state := NotOpened;
                 reader_dictionaries := ∅ |}
    (stream_bytes options batch) =
  Ok ({| reader_source := source;
         reader_schema := Some (batch_schema batch);
         reader_state := SchemaRead;
         reader_dictionaries := ∅ |},
      concat (dictionary_message options <$> batch_updates batch) ++
      frame_message options (RecordBatchHeader (batch_descriptor batch))
        (batch_body batch) ++
      end_of_stream options).
Proof.
  intros (Hframe & _ & _). unfold stream_bytes, stream_messages in *.
  apply Forall_cons in Hframe as [Hschema _].
  unfold reader_open. cbn [reader_state fmap list_fmap concat fst snd].
  rewrite <- !app_assoc. rewrite read_message_frame by exact Hschema.
  cbn. rewrite fmap_app, concat_app. cbn. rewrite app_nil_r.
  rewrite <- list_fmap_compose. rewrite <- app_assoc. reflexivity.
Qed.

(** The first [read_next_batch] after the schema applies the dictionary
    messages and gives the batch. *)
Lemma read_next_batch_stream
    (options : IpcWriteOptions) (batch : RecordBatch) (source : Source) :
  reads_back options batch →
  reader_read_next_batch
    {| reader_source := source;
       reader_schema := Some (batch_schema batch);
       reader_state := SchemaRead;
       reader_dictionaries := ∅ |}
    (concat (dictionary_message options <$> batch_updates batch) ++
     frame_message options (RecordBatchHeader (batch_descriptor batch))
       (batch_body batch) ++
     end_of_stream options) =
  Ok (Some batch,
      {| reader_source := source;
         reader_schema := Some (batch_schema batch);
         reader_state := Reading;
         reader_dictionaries := batch_known batch |},
      end_of_stream options).
Proof.
  intros (Hframe & Hdict & Hbatch). unfold stream_messages in Hframe.
  apply Forall_cons in Hframe as [_ Hframe].
  apply Forall_app in Hframe as [Hframe Hlast].
  rewrite Forall_singleton in Hlast. rewrite Forall_fmap in Hframe.
  assert (Hupd : dictionary_updates ∅ (batch_dictionaries batch) =
                 (batch_updates batch, batch_known batch))
    by (unfold batch_updates, batch_known;
        by destruct (dictionary_updates ∅ (batch_dictionaries batch))).
  remember (batch_updates batch) as updates eqn:Hupdates.
  unfold reader_read_next_batch.
  cbn [reader_state reader_schema reader_dictionaries reader_source].
  match goal with
  | |- context [read_batch_loop (S (length ?bs))] =>
      assert (Hlen : ∃ fuel, S (length bs) = (length updates + S fuel)%nat)
  end.
  { rewrite !length_app.
    pose proof (dictionary_messages_length options updates) as Hm.
    exists (length (concat (dictionary_message options <$> updates))
            - length updates
            + length (frame_message options
                        (RecordBatchHeader (batch_descriptor batch))
                        (batch_body batch))
            + length (end_of_stream options))%nat. lia. }
  destruct Hlen as [fuel ->].
  rewrite (read_dictionary_updates options (batch_schema batch)
             (batch_dictionaries batch) ∅ (batch_known batch) updates);
    [ | exact Hupd | exact Hframe | exact Hdict].
  cbn [read_batch_loop].
  rewrite read_message_frame by exact Hlast. cbn.
  rewrite Hbatch. reflexivity.
Qed.

(** The next [read_next_batch] meets the end-of-stream marker. *)
Lemma read_next_batch_end
    (options : IpcWriteOptions) (r : StreamReader Schema Value) (schema : Schema) :
  reader_state r = Reading →
  reader_schema r = Some schema →
  reader_read_next_batch r (end_of_stream options) =
  Ok (None,
      {| reader_source := reader_source r;
         reader_schema := reader_schema r;
         reader_state := Exhausted;
         reader_dictionaries := reader_dictionaries r |},
      []).
Proof.
  intros Hstate Hschema. unfold reader_read_next_batch.
  rewrite Hstate, Hschema. cbn [read_batch_loop].
  rewrite <- (app_nil_r (end_of_stream options)).
  rewrite read_message_end_of_stream. reflexivity.
Qed.

(** [read_all] on what follows the schema gives the one batch and leaves the
    reader exhausted at the end of its source. *)
Lemma reader_read_all_stream
    (options : IpcWriteOptions) (batch : RecordBatch) (source : Source) :
  reads_back options batch →
  reader_read_all
    {| reader_source := source;
       reader_schema := Some (batch_schema batch);
       reader_state := SchemaRead;
       reader_dictionaries := ∅ |}
    (concat (dictionary_message options <$> batch_updates batch) ++
     frame_message options (RecordBatchHeader (batch_descriptor batch))
       (batch_body batch) ++
     end_of_stream options) =
  Ok ({| table_schema := batch_schema batch; table_batches := [batch] |},
      {| reader_source := source;
         reader_schema := Some (batch_schema batch);
         reader_state := Exhausted;
         reader_dictionaries := batch_known batch |},
      []).
Proof.
  intros Hback. unfold reader_read_all. cbn [reader_schema].
  match goal with
  | |- context [drain (S (length ?bs))] =>
      assert (Hlen : ∃ fuel, length bs = S fuel)
  end.
  { rewrite !length_app.
    pose proof (frame_message_length options
                  (RecordBatchHeader (batch_descriptor batch)) (batch_body batch)).
    exists (length (concat (dictionary_message options <$> batch_updates batch))
            + length (frame_message options
                        (RecordBatchHeader (batch_descriptor batch))
                        (batch_body batch))
            + length (end_of_stream options) - 1)%nat. lia. }
  destruct Hlen as [fuel ->]. cbn [drain].
  rewrite (read_next_batch_stream options batch source Hback).
  cbn [mbind Res_bind].
  rewrite (read_next_batch_end options _ (batch_schema batch)) by reflexivity.
  reflexivity.
Qed.

End ProtocolFacts.

(** ** Running bodies in a native layer *)

Section RunFacts.

Context {Frame Schema RecordBatch W : Type}.
Variable h : @handler Frame Schema RecordBatch W.

Local Abbreviation Prog := (@Prog Frame Schema RecordBatch).

Lemma result_call_k {X R} (c : libE X) (k : Res X → Prog R) (w : W) :
  result h (Call c k) w = result h (k (h X c w).1) (h X c w).2.
Proof.
  unfold result. simpl. destruct (h X c w) as [x w1]. simpl.
  by destruct (run h (k x) w1) as [[tr out] w2].
Qed.

Lemma result_lift {R} (r : Res R) (w : W) : result h (lift r) w = (r, w).
Proof. by destruct r. Qed.

Lemma result_call {X} (c : libE X) (w : W) : result h (call c) w = h X c w.
Proof.
  unfold call. rewrite result_call_k, result_lift. by destruct (h X c w).
Qed.

Lemma result_bind {A B} (p : Prog A) (f : A → Prog B) (w : W) :
  result h (p ≫= f) w =
  match result h p w with
  | (Ok a, w1) => result h (f a) w1
  | (Raise e, w1) => (Raise e, w1)
  end.
Proof.
  revert w. induction p as [a | e | X c k IH]; intros w.
  - reflexivity.
  - reflexivity.
  - change (Call c k ≫= f) with (Call c (λ x, k x ≫= f)).
    rewrite !result_call_k. apply IH.
Qed.

Lemma result_finally {R} (body : Prog R) (cleanup : Prog ()) (w : W) :
  result h (finally body cleanup) w =
  match result h cleanup (result h body w).2 with
  | (Ok _, w2) => ((result h body w).1, w2)
  | (Raise e, w2) => (Raise e, w2)
  end.
Proof.
  revert w. induction body as [r | e | X c k IH]; intros w; cbn [finally].
  - rewrite result_bind. unfold result at 2 3. simpl.
    by destruct (result h cleanup w) as [[[] | e] w2].
  - rewrite result_bind. unfold result at 2 3. simpl.
    by destruct (result h cleanup w) as [[[] | e'] w2].
  - rewrite !result_call_k. apply IH.
Qed.

Lemma run_result {R} (p : Prog R) (w : W) :
  run h p w = ((run h p w).1.1, (result h p w).1, (result h p w).2).
Proof. unfold result. by destruct (run h p w) as [[tr out] w2]. Qed.

End RunFacts.

(** ** The round trip through the façade *)

Section RoundTrip.

Context `{Columnar Frame Schema RecordBatch Descriptor Value}.
Variable environ : gmap string string.

Lemma on_writer_ok
    (writer : Writer) (obj obj' : StreamWriter Schema Value)
    (written bytes : list byte)
    (method : StreamWriter Schema Value →
              Res (StreamWriter Schema Value * list byte))
    (w : World Schema Value) :
  writers w !! writer = Some obj →
  sinks w !! writer_sink obj = Some written →
  method obj = Ok (obj', bytes) →
  on_writer writer method w =
  (Ok (), with_writer writer obj' (with_sink (writer_sink obj) (written ++ bytes) w)).
Proof. intros Hw Hs Hm. unfold on_writer. by rewrite Hw, Hs, Hm. Qed.

(** [serialize_pandas] in the native layer: the buffer it returns holds the
    stream of the converted batch. *)
Lemma result_serialize_pandas
    (w : World Schema Value) (df : Frame) (nthreads preserve_index : PyVal)
    (batch : RecordBatch) (options : IpcWriteOptions) :
  from_pandas df nthreads preserve_index = Ok batch →
  _get_legacy_format_default environ None PyNone = Ok options →
  (result native
     (serialize_pandas environ batch_schema df nthreads preserve_index) w).1
  = Ok (stream_bytes options batch).
Proof.
  intros Hfrom Hresolve.
  unfold serialize_pandas, with_, RecordBatchStreamWriter. rewrite Hresolve.
  rewrite result_bind, result_call. cbn [native]. rewrite Hfrom.
  rewrite result_bind, result_call. cbn [native allocate].
  rewrite result_bind, result_bind. cbn [lift mbind Prog_bind Prog_bind_def].
  rewrite result_call. cbn [native].
  unfold stream_writer_open.
  cbn [sinks with_sink writer_open writer_state set_writer_state allocate
       writer_sink writer_schema writer_options writer_dictionaries next_ref].
  rewrite lookup_insert_eq.
  rewrite result_finally, !result_call. cbn [native].
  destruct (dictionary_updates ∅ (batch_dictionaries batch))
    as [updates known] eqn:Hupd.
  erewrite (on_writer_ok _ _ _ _ _ (λ obj, writer_write_batch obj batch));
    [ | apply lookup_insert_eq | apply lookup_insert_eq | ].
  2:{ unfold writer_write_batch.
      cbn [writer_state writer_schema set_writer_state].
      rewrite bool_decide_eq_true_2 by reflexivity.
      cbn [writer_dictionaries writer_options writer_sink set_writer_state].
      rewrite Hupd. reflexivity. }
  cbn [fst snd].
  erewrite on_writer_ok; [ | apply lookup_insert_eq | apply lookup_insert_eq | ].
  2:{ reflexivity. }
  rewrite result_call. cbn [native sinks with_sink with_writer writer_sink].
  rewrite lookup_insert_eq. cbn [fst].
  unfold stream_bytes, stream_messages, batch_updates. rewrite Hupd.
  cbn [fst snd fmap list_fmap concat app].
  rewrite fmap_app, concat_app. cbn [fmap list_fmap concat].
  rewrite <- list_fmap_compose, app_nil_r, <- !app_assoc. reflexivity.
Qed.

Lemma stream_read_all_ok
    (reader : Reader) (obj obj' : StreamReader Schema Value)
    (bytes rest : list byte) (table : @Table Schema RecordBatch)
    (w : World Schema Value) :
  readers w !! reader = Some obj →
  sources w !! reader_source obj = Some bytes →
  reader_read_all obj bytes = Ok (table, obj', rest) →
  stream_read_all reader w =
  (Ok table, with_reader reader obj' (with_source (reader_source obj) rest w)).
Proof. intros Hr Hs Hread. unfold stream_read_all. by rewrite Hr, Hs, Hread. Qed.

(** [deserialize_pandas] in the native layer, on the stream of one batch:
    the converter is handed the table of that batch. *)
Lemma result_deserialize_pandas
    (w : World Schema Value) (use_threads : PyVal)
    (batch : RecordBatch) (options : IpcWriteOptions) :
  reads_back options batch →
  (result native
     (deserialize_pandas (stream_bytes options batch) use_threads) w).1
  = to_pandas {| table_schema := batch_schema batch; table_batches := [batch] |}
      [("use_threads", use_threads)].
Proof.
  intros Hback. unfold deserialize_pandas, with_, RecordBatchStreamReader.
  rewrite result_bind, result_call. cbn [native allocate].
  rewrite result_bind, result_bind, result_call. cbn [native].
  unfold stream_reader_open. cbn [sources with_source].
  rewrite lookup_insert_eq.
  rewrite (reader_open_stream options batch _ Hback). cbn [allocate next_ref with_source].
  rewrite result_finally, !result_call. cbn [native].
  erewrite stream_read_all_ok;
    [ | apply lookup_insert_eq | apply lookup_insert_eq
      | apply (reader_read_all_stream options batch _ Hback)].
  cbn [fst snd readers with_reader]. rewrite lookup_insert_eq.
  rewrite result_call. reflexivity.
Qed.


End RoundTrip.

Import Toy.




(** * Further properties of the module *)

Section MoreResolverFacts.

Variable environ : gmap string string.

(** X2: resolution looks at the environment through two variables only, and
    at ARROW_PRE_0_15_IPC_FORMAT only when no legacy flag is given: two
    environments that agree there give the same outcome. *)
Theorem resolution_reads_two_variables
    (other : gmap string string) (u : option bool) (options : PyVal) :
  (u = None →
   environ !! "ARROW_PRE_0_15_IPC_FORMAT" = other !! "ARROW_PRE_0_15_IPC_FORMAT") →
  environ !! "ARROW_PRE_1_0_METADATA_VERSION" =
    other !! "ARROW_PRE_1_0_METADATA_VERSION" →
  _get_legacy_format_default environ u options =
  _get_legacy_format_default other u options.
Proof.
  intros Hlegacy Hmeta. unfold _get_legacy_format_default, environ_get.
  rewrite Hmeta. destruct u as [b | ]; [reflexivity | ].
  by rewrite (Hlegacy eq_refl).
Qed.

(** The message of [int]'s error is not the message of the mutual-exclusion
    error. *)
Lemma int_error_is_not_at_most_one (s : string) :
  Builtins.int s ≠
  Raise (ValueError "Can provide at most one of options and use_legacy_format").
Proof.
  unfold Builtins.int. destruct (Builtins.parse_int s); [discriminate | ].
  simpl. intros [=].
Qed.

Lemma environ_get_present_text (key default text : string) :
  environ !! key = Some text → environ_get environ key default = text.
Proof. unfold environ_get. by intros ->. Qed.

(** Whatever the defaults branch raises was raised by [int]. *)
Lemma resolve_None_raised_by_int (u : option bool) (e : PyExc) :
  _get_legacy_format_default environ u PyNone = Raise e →
  ∃ s, Builtins.int s = Raise e.
Proof.
  unfold _get_legacy_format_default.
  rewrite resolve_guard_false by (right; reflexivity). simpl truthy. cbv iota.
  destruct (Builtins.int (environ_get environ "ARROW_PRE_1_0_METADATA_VERSION" "0"))
    eqn:Hmeta;
    destruct u as [b | ]; simpl;
    destruct (Builtins.int (environ_get environ "ARROW_PRE_0_15_IPC_FORMAT" "0"))
      eqn:Hlegacy;
    simpl; try discriminate; intros [= <-]; eauto.
Qed.



End MoreResolverFacts.

Section MoreConstructorFacts.

Context {Frame Schema RecordBatch : Type}.
Variable environ : gmap string string.
Variable RecordBatch_schema : RecordBatch → Schema.

Local Abbreviation Prog := (@Prog Frame Schema RecordBatch).
Local Abbreviation step := (@step Frame Schema RecordBatch).

(** X1: constructing a writer makes at most one call into the native layer.
    When option resolution raises, the constructor raises the same
    exception and nothing is opened; otherwise the only call is [_open] of
    the class, with the sink and the schema as given and the resolved
    options, and the constructor ends as that call does. *)
Theorem writer_construction_calls
    (sink : Sink) (schema : Schema) (u : option bool) (options : PyVal)
    (tr : list step) (out : Res Writer) :
  (exec (RecordBatchStreamWriter environ sink schema u options) tr out ↔
   match _get_legacy_format_default environ u options with
   | Raise e => tr = [] ∧ out = Raise e
   | Ok resolved =>
       tr = [Called (_RecordBatchStreamWriter_open sink schema resolved) out]
   end) ∧
  (exec (RecordBatchFileWriter environ sink schema u options) tr out ↔
   match _get_legacy_format_default environ u options with
   | Raise e => tr = [] ∧ out = Raise e
   | Ok resolved =>
       tr = [Called (_RecordBatchFileWriter_open sink schema resolved) out]
   end).
Proof.
  unfold RecordBatchStreamWriter, RecordBatchFileWriter.
  destruct (_get_legacy_format_default environ u options) as [resolved | e].
  - split; apply exec_call.
  - split; cbn; tauto.
Qed.

(** X6: options that resolution returned can be passed back as [options]:
    in any environment, the constructors then behave as the call that
    resolved them did in its own environment. *)
Theorem resolved_options_pin_the_writer
    (other : gmap string string) (sink : Sink) (schema : Schema)
    (u : option bool) (options : PyVal) (resolved : IpcWriteOptions) :
  _get_legacy_format_default environ u options = Ok resolved →
  RecordBatchStreamWriter other sink schema None (PyOptions resolved) =
    (RecordBatchStreamWriter environ sink schema u options : Prog Writer) ∧
  RecordBatchFileWriter other sink schema None (PyOptions resolved) =
    (RecordBatchFileWriter environ sink schema u options : Prog Writer).
Proof.
  intros Hresolved. unfold RecordBatchStreamWriter, RecordBatchFileWriter.
  rewrite Hresolved. by rewrite (resolve_truthy other (PyOptions resolved)).
Qed.


(** X5: how [deserialize_pandas] can fail.  It raises [e] exactly in these
    executions: wrapping the buffer raises [e]; or opening the reader does;
    or [read_all] raises [e] and the reader's block is then left without a
    further error; or leaving the block raises [e], whatever [read_all] did;
    or everything before went well and the conversion raises [e].  So a
    reader that was opened always has its block left, and the converter is
    never called after a failure. *)
Theorem deserialize_pandas_failures
    (buf : Buffer) (use_threads : PyVal) (tr : list step) (e : PyExc) :
  exec (deserialize_pandas buf use_threads) tr (Raise e) ↔
  tr = [Called (BufferReader buf) (Raise e)] ∨
  ∃ source : Source,
    tr = [Called (BufferReader buf) (Ok source);
          Called (_RecordBatchStreamReader_open source) (Raise e)] ∨
    ∃ reader : Reader,
      tr = [Called (BufferReader buf) (Ok source);
            Called (_RecordBatchStreamReader_open source) (Ok reader);
            Called (read_all reader) (Raise e);
            Called (Reader__exit__ reader) (Ok ())] ∨
      (∃ read : Res Table,
          tr = [Called (BufferReader buf) (Ok source);
                Called (_RecordBatchStreamReader_open source) (Ok reader);
                Called (read_all reader) read;
                Called (Reader__exit__ reader) (Raise e)]) ∨
      (∃ table : Table,
          tr = [Called (BufferReader buf) (Ok source);
                Called (_RecordBatchStreamReader_open source) (Ok reader);
                Called (read_all reader) (Ok table);
                Called (Reader__exit__ reader) (Ok ());
                Called (Table_to_pandas table [("use_threads", use_threads)])
                  (Raise e)]).
Proof.
  unfold deserialize_pandas, with_, RecordBatchStreamReader. split.
  - intros H. cbn in H.
    destruct H as ([source | ?] & ? & -> & H); cbn in H;
      [ | destruct H as [-> [= ->]]; by left].
    right. exists source.
    destruct H as ([reader | ?] & ? & -> & H); cbn in H;
      [ | destruct H as [-> [= ->]]; by left].
    right. exists reader.
    destruct H as ([table | e_read] & ? & -> & H); cbn in H.
    + destruct H as ([[] | ?] & ? & -> & H); cbn in H.
      * destruct H as ([df | ?] & ? & -> & H); cbn in H;
          [by destruct H | ].
        destruct H as [-> [= ->]]. right. right. by exists table.
      * destruct H as [-> [= ->]]. right. left. by exists (Ok table).
    + destruct H as ([[] | ?] & ? & -> & H); cbn in H.
      * destruct H as [-> [= ->]]. by left.
      * destruct H as [-> [= ->]]. right. left. by exists (Raise e_read).
  - intros [-> | (source & [-> | (reader & [-> | [(read & ->) | (table & ->)]])])];
      cbn.
    + eexists _, _. split; [reflexivity | ]. by cbn.
    + do 2 (eexists _, _; split; [reflexivity | ]; cbn). done.
    + do 4 (eexists _, _; split; [reflexivity | ]; cbn). done.
    + do 3 (eexists _, _; split; [reflexivity | ]; cbn).
      destruct read; cbn; eexists _, _; (split; [reflexivity | ]); by cbn.
    + do 5 (eexists _, _; split; [reflexivity | ]; cbn). done.
Qed.

(** X4: how [serialize_pandas] can fail.  It raises [e] exactly in these
    executions: the conversion raises [e]; or creating the sink does; or the
    default options cannot be resolved, in which case the sink was created
    and no writer is opened; or opening the writer raises [e]; or
    [write_batch] raises [e] and the writer's block is then left without a
    further error; or leaving the block raises [e], whatever [write_batch]
    did; or everything before went well and [getvalue] raises [e].  So a
    writer that was opened always has its block left, exactly one batch
    write is attempted, and the sink is never read after a failure. *)
Theorem serialize_pandas_failures
    (df : Frame) (nthreads preserve_index : PyVal) (tr : list step) (e : PyExc) :
  exec (serialize_pandas environ RecordBatch_schema df nthreads preserve_index)
       tr (Raise e) ↔
  tr = [Called (RecordBatch_from_pandas df nthreads preserve_index) (Raise e)] ∨
  ∃ batch : RecordBatch,
    tr = [Called (RecordBatch_from_pandas df nthreads preserve_index) (Ok batch);
          Called BufferOutputStream (Raise e)] ∨
    ∃ sink : Sink,
      match _get_legacy_format_default environ None PyNone with
      | Raise e' =>
          tr = [Called (RecordBatch_from_pandas df nthreads preserve_index)
                  (Ok batch);
                Called BufferOutputStream (Ok sink)] ∧
          e = e'
      | Ok options =>
          tr = [Called (RecordBatch_from_pandas df nthreads preserve_index)
                  (Ok batch);
                Called BufferOutputStream (Ok sink);
                Called (_RecordBatchStreamWriter_open sink
                          (RecordBatch_schema batch) options) (Raise e)] ∨
          ∃ writer : Writer,
            tr = [Called (RecordBatch_from_pandas df nthreads preserve_index)
                    (Ok batch);
                  Called BufferOutputStream (Ok sink);
                  Called (_RecordBatchStreamWriter_open sink
                            (RecordBatch_schema batch) options) (Ok writer);
                  Called (write_batch writer batch) (Raise e);
                  Called (Writer__exit__ writer) (Ok ())] ∨
            (∃ written : Res (),
                tr = [Called (RecordBatch_from_pandas df nthreads preserve_index)
                        (Ok batch);
                      Called BufferOutputStream (Ok sink);
                      Called (_RecordBatchStreamWriter_open sink
                                (RecordBatch_schema batch) options) (Ok writer);
                      Called (write_batch writer batch) written;
                      Called (Writer__exit__ writer) (Raise e)]) ∨
            tr = [Called (RecordBatch_from_pandas df nthreads preserve_index)
                    (Ok batch);
                  Called BufferOutputStream (Ok sink);
                  Called (_RecordBatchStreamWriter_open sink
                            (RecordBatch_schema batch) options) (Ok writer);
                  Called (write_batch writer batch) (Ok ());
                  Called (Writer__exit__ writer) (Ok ());
                  Called (getvalue sink) (Raise e)]
      end.
Proof.
  unfold serialize_pandas, with_, RecordBatchStreamWriter.
  destruct (_get_legacy_format_default environ None PyNone) as [options | e'].
  - split.
    + intros H. cbn in H.
      destruct H as ([batch | ?] & ? & -> & H); cbn in H;
        [ | destruct H as [-> [= ->]]; by left].
      right. exists batch.
      destruct H as ([sink | ?] & ? & -> & H); cbn in H;
        [ | destruct H as [-> [= ->]]; by left].
      right. exists sink.
      destruct H as ([writer | ?] & ? & -> & H); cbn in H;
        [ | destruct H as [-> [= ->]]; by left].
      right. exists writer.
      destruct H as ([[] | e_write] & ? & -> & H); cbn in H.
      * destruct H as ([[] | ?] & ? & -> & H); cbn in H.
        -- destruct H as ([buf | ?] & ? & -> & H); cbn in H;
             [by destruct H | ].
           destruct H as [-> [= ->]]. by right; right.
        -- destruct H as [-> [= ->]]. right. left. by exists (Ok ()).
      * destruct H as ([[] | ?] & ? & -> & H); cbn in H.
        -- destruct H as [-> [= ->]]. by left.
        -- destruct H as [-> [= ->]]. right. left. by exists (Raise e_write).
    + intros [-> | (batch & [-> | (sink & [-> | (writer & [-> | [(written & ->) | ->]])])])];
        cbn.
      * eexists _, _. split; [reflexivity | ]. by cbn.
      * do 2 (eexists _, _; split; [reflexivity | ]; cbn). done.
      * do 3 (eexists _, _; split; [reflexivity | ]; cbn). done.
      * do 5 (eexists _, _; split; [reflexivity | ]; cbn). done.
      * do 4 (eexists _, _; split; [reflexivity | ]; cbn).
        destruct written as [[] | ?]; cbn;
          eexists _, _; (split; [reflexivity | ]); by cbn.
      * do 6 (eexists _, _; split; [reflexivity | ]; cbn). done.
  - split.
    + intros H. cbn in H.
      destruct H as ([batch | ?] & ? & -> & H); cbn in H;
        [ | destruct H as [-> [= ->]]; by left].
      right. exists batch.
      destruct H as ([sink | ?] & ? & -> & H); cbn in H;
        [ | destruct H as [-> [= ->]]; by left].
      right. exists sink. by destruct H as [-> [= ->]].
    + intros [-> | (batch & [-> | (sink & -> & ->)])]; cbn.
      * eexists _, _. split; [reflexivity | ]. by cbn.
      * do 2 (eexists _, _; split; [reflexivity | ]; cbn). done.
      * do 2 (eexists _, _; split; [reflexivity | ]; cbn). done.
Qed.

End MoreConstructorFacts.

Lemma resolution_reads_two_variables_witness :
  _get_legacy_format_default
    {["ARROW_PRE_0_15_IPC_FORMAT" := "1"; "HOME" := "/root"]} None PyNone =
  _get_legacy_format_default {["ARROW_PRE_0_15_IPC_FORMAT" := "1"]} None PyNone.
Proof.
  apply (resolution_reads_two_variables
           {["ARROW_PRE_0_15_IPC_FORMAT" := "1"; "HOME" := "/root"]}
           {["ARROW_PRE_0_15_IPC_FORMAT" := "1"]} None PyNone).
  - intros _. reflexivity.
  - reflexivity.
Defined.

Lemma resolved_options_pin_the_writer_witness :
  RecordBatchStreamWriter (Frame:=()) (Schema:=()) (RecordBatch:=())
    ∅ 0%nat () None
    (PyOptions {| use_legacy_format := true; metadata_version := V5 |}) =
  RecordBatchStreamWriter {["ARROW_PRE_0_15_IPC_FORMAT" := "1"]} 0%nat () None PyNone.
Proof.
  apply (resolved_options_pin_the_writer (Frame:=()) (Schema:=()) (RecordBatch:=())
           {["ARROW_PRE_0_15_IPC_FORMAT" := "1"]} ∅ 0%nat () None PyNone
           {| use_legacy_format := true; metadata_version := V5 |}).
  reflexivity.
Defined.


